(** * ChipChat: the webhook dispatch engine of the ChatShipper SDK

    A shallow embedding of the main module of the SDK (class [ChipChat]:
    the constructor, [ingest], [_handleEvent], [_handleMessage],
    [_getActionsObject], the two built-in receive middlewares, the
    conditional matcher [match]/[matcher], [registerCallback], [onText],
    [onReply], [removeReplyListener] and the closure installed by [ask]),
    followed by theorems about its dispatch behaviour.

    Conventions of the embedding.
    - JavaScript values are the inductive type [value].  Numbers are
      restricted to integers; objects are association lists in insertion
      order and only own data properties are modelled (a read of an
      inherited member such as [toString] gives [undefined]).  A function
      object is opaque and stringifies to its name.
    - A regular expression is carried as its source text together with its
      acceptance predicate on strings, so [test] and a truthy [exec] are
      [re_accepts]; patterns are taken to start at [lastIndex = 0], which is
      what [_handleMessage] restores after every hit.
    - Exceptions are completions ([Normal] / [Throw]); the bot is threaded
      explicitly through a state-and-exception monad [M].
    - What the engine does towards the outside is recorded in a log: every
      [emit], every call it makes to a callback or a middleware step, every
      outbound [send] and every organization fetch.  Listeners subscribed
      through the event emitter are outside the model, except the
      [conversation.update] listener the constructor installs itself.
    - User-supplied functions (handlers, middleware steps) and the helpers
      that live in other modules ([getSignature], [JSON.stringify],
      [jwt.decode]) are fields of an [environment].  A user function is a
      transformer of the bot that may throw; it cannot write to the log, and
      what it does to the context object it is handed is not tracked.
      Middleware steps call their continuation, if at all, before they
      return.
    - The organization fetch of [ingest] is asynchronous: [ingest] records
      the request and returns, and [preload_settled] is what runs when the
      request settles. *)

From Stdlib Require Import ZArith String Ascii List Bool DecimalString Lia.
From stdpp Require Import base option list gmap strings.

Set Warnings "-register-all".
Local Open Scope string_scope.
Local Open Scope Z_scope.

(** ** JavaScript values *)

Record regexp := RegExp { re_source : string; re_accepts : string -> bool }.

Inductive value : Type :=
| VUndefined
| VNull
| VBool (b : bool)
| VNum (n : Z)
| VStr (s : string)
| VArr (items : list value)
| VObj (props : list (string * value))
| VRegExp (r : regexp)
| VFun (src : string)
| VError (name message : string).

Inductive completion (A : Type) : Type :=
| Normal (a : A)
| Throw (e : value).
Arguments Normal {A} a.
Arguments Throw {A} e.

Definition cbind {A B} (c : completion A) (k : A -> completion B) : completion B :=
  match c with
  | Normal a => k a
  | Throw e => Throw e
  end.

Notation "'let?' x := e 'in' k" := (cbind e (fun x => k))
  (at level 10, x name, e at level 100, k at level 200).

Definition type_error (msg : string) : value := VError "TypeError" msg.

Definition is_type_error (e : value) : bool :=
  match e with
  | VError name _ => String.eqb name "TypeError"
  | _ => false
  end.

(** [ToBoolean]. *)
Definition truthy (v : value) : bool :=
  match v with
  | VUndefined | VNull => false
  | VBool b => b
  | VNum n => negb (n =? 0)
  | VStr s => negb (String.eqb s "")
  | _ => true
  end.

(** [a === b].  Objects, arrays, patterns and functions compare by
    identity in JavaScript; the model carries no identities and treats two
    such operands as distinct references. *)
Definition strict_eq (a b : value) : bool :=
  match a, b with
  | VUndefined, VUndefined => true
  | VNull, VNull => true
  | VBool x, VBool y => Bool.eqb x y
  | VNum x, VNum y => x =? y
  | VStr x, VStr y => String.eqb x y
  | _, _ => false
  end.

Definition num_to_string (n : Z) : string := NilZero.string_of_int (Z.to_int n).

Fixpoint join (sep : string) (l : list string) : string :=
  match l with
  | [] => ""
  | [s] => s
  | s :: r => s ++ sep ++ join sep r
  end.

(** [ToString], also used for property keys and template literals. *)
Fixpoint to_string (v : value) : string :=
  match v with
  | VUndefined => "undefined"
  | VNull => "null"
  | VBool true => "true"
  | VBool false => "false"
  | VNum n => num_to_string n
  | VStr s => s
  | VArr items =>
      join "," (map (fun x => match x with
                              | VUndefined | VNull => ""
                              | _ => to_string x
                              end) items)
  | VObj _ => "[object Object]"
  | VRegExp r => "/" ++ re_source r ++ "/"
  | VFun src => src
  | VError name message =>
      if String.eqb message "" then name
      else if String.eqb name "" then message
      else name ++ ": " ++ message
  end.

Fixpoint assoc (k : string) (o : list (string * value)) : value :=
  match o with
  | [] => VUndefined
  | (k', v) :: r => if String.eqb k k' then v else assoc k r
  end.

Fixpoint index_lookup {A} (k : string) (i : nat) (l : list A) : option A :=
  match l with
  | [] => None
  | x :: r => if String.eqb k (num_to_string (Z.of_nat i)) then Some x
              else index_lookup k (S i) r
  end.

(** [o[k]] on a value that is neither [undefined] nor [null]. *)
Definition own (o : value) (k : string) : value :=
  match o with
  | VObj props => assoc k props
  | VArr items =>
      if String.eqb k "length" then VNum (Z.of_nat (List.length items))
      else default VUndefined (index_lookup k 0 items)
  | VStr s =>
      if String.eqb k "length" then VNum (Z.of_nat (String.length s))
      else default VUndefined
             ((fun a => VStr (String a EmptyString)) <$> index_lookup k 0 (list_ascii_of_string s))
  | VError name message =>
      if String.eqb k "name" then VStr name
      else if String.eqb k "message" then VStr message
      else VUndefined
  | VRegExp r => if String.eqb k "source" then VStr (re_source r) else VUndefined
  | _ => VUndefined
  end.

(** [o[k]] in general: reading a property of [undefined] or [null] throws. *)
Definition get (o : value) (k : string) : completion value :=
  match o with
  | VUndefined | VNull =>
      Throw (type_error ("Cannot read properties of " ++ to_string o
                         ++ " (reading '" ++ k ++ "')"))
  | _ => Normal (own o k)
  end.

Fixpoint indices {A} (i : nat) (l : list A) : list string :=
  match l with
  | [] => []
  | _ :: r => num_to_string (Z.of_nat i) :: indices (S i) r
  end.

(** [Object.keys(o)]. *)
Definition object_keys (o : value) : completion (list string) :=
  match o with
  | VUndefined | VNull => Throw (type_error "Cannot convert undefined or null to object")
  | VObj props => Normal (map fst props)
  | VArr items => Normal (indices 0 items)
  | VStr s => Normal (indices 0 (list_ascii_of_string s))
  | _ => Normal []
  end.

Definition starts_with (p s : string) : bool := String.prefix p s.

(** [s.replace(/^@/, '')]. *)
Definition strip_at (s : string) : string :=
  match s with
  | String "@" r => r
  | _ => s
  end.

(** ** The conditional matcher *)

Fixpoint matcher (v test : value) : bool :=
  match test with
  | VStr _ | VNum _ | VBool _ => strict_eq v test
  | VArr items =>
      fold_left (fun acc curr => if matcher v curr then true else acc) items false
  | VRegExp r => re_accepts r (to_string v)
  | _ => false
  end.

Definition reducer (c m conditionals : value) (accumulator : bool) (current : string)
  : completion bool :=
  if accumulator then
    let expected := own conditionals current in
    let? mv := get m current in
    if truthy mv && matcher mv expected then Normal true
    else
      let? hit :=
        (if starts_with "@" current
         then let? cv := get c (strip_at current) in Normal (matcher cv expected)
         else Normal false) in
      if hit then Normal true
      else
        let? meta := get c "meta" in
        if truthy meta && matcher (own meta current) expected then Normal true
        else Normal false
  else Normal false.

Fixpoint reduce {A B} (f : A -> B -> completion A) (l : list B) (a : A) : completion A :=
  match l with
  | [] => Normal a
  | x :: r => let? a' := f a x in reduce f r a'
  end.

(** [match(c, m, conditionals)]. *)
Definition match_ (c m conditionals : value) : completion bool :=
  let? keys := object_keys conditionals in
  if negb (Nat.eqb (List.length keys) 0)
  then reduce (reducer c m conditionals) keys true
  else Normal true.

(** The matcher as the specification words it: a key is resolved to the
    first location holding a defined value, and only that value is tested. *)
Definition defined (v : value) : bool :=
  match v with
  | VUndefined => false
  | _ => true
  end.

Definition spec_first_defined (c m : value) (key : string) : value :=
  if defined (own m key) then own m key
  else if starts_with "@" key && defined (own c (strip_at key)) then own c (strip_at key)
  else match own c "meta" with
       | VUndefined | VNull => VUndefined
       | meta => own meta key
       end.

Definition spec_match (c m conditionals : value) : bool :=
  match conditionals with
  | VObj props =>
      forallb (fun key => matcher (spec_first_defined c m key) (own conditionals key))
              (map fst props)
  | _ => true
  end.

(** What the three guarded tests of [reducer] amount to for one key. *)
Definition passes_on_message (m conditionals : value) (key : string) : bool :=
  truthy (own m key) && matcher (own m key) (own conditionals key).

Definition passes_on_context (c conditionals : value) (key : string) : bool :=
  starts_with "@" key && matcher (own c (strip_at key)) (own conditionals key).

Definition passes_on_meta (c conditionals : value) (key : string) : bool :=
  truthy (own c "meta") && matcher (own (own c "meta") key) (own conditionals key).

Definition key_passes (c m conditionals : value) (key : string) : bool :=
  passes_on_message m conditionals key
  || passes_on_context c conditionals key
  || passes_on_meta c conditionals key.

Definition nullish (v : value) : bool :=
  match v with
  | VUndefined | VNull => true
  | _ => false
  end.

(** ** Objects as records: writes and [Object.assign] *)

Fixpoint set_assoc (k : string) (v : value) (o : list (string * value)) : list (string * value) :=
  match o with
  | [] => [(k, v)]
  | (k', v') :: r => if String.eqb k k' then (k, v) :: r else (k', v') :: set_assoc k v r
  end.

(** [o[k] = v] on a plain object. *)
Definition set_prop (o : value) (k : string) (v : value) : value :=
  match o with
  | VObj props => VObj (set_assoc k v props)
  | _ => o
  end.

(** The own enumerable properties [Object.assign] copies from a source. *)
Definition own_props (o : value) : list (string * value) :=
  match o with
  | VObj props => props
  | VArr items => combine (indices 0 items) items
  | VStr s =>
      combine (indices 0 (list_ascii_of_string s))
              (map (fun a => VStr (String a EmptyString)) (list_ascii_of_string s))
  | _ => []
  end.

Definition assign (target : list (string * value)) (source : list (string * value))
  : list (string * value) :=
  fold_left (fun t kv => set_assoc (fst kv) (snd kv) t) source target.

Definition upper_ascii (a : ascii) : ascii :=
  let n := nat_of_ascii a in
  if (Nat.leb 97 n && Nat.leb n 122)%bool then ascii_of_nat (n - 32) else a.

Fixpoint upper (s : string) : string :=
  match s with
  | EmptyString => EmptyString
  | String a r => String (upper_ascii a) (upper r)
  end.

(** [v.toUpperCase()]: only strings have the method (ASCII letters only). *)
Definition toUpperCase (v : value) : completion string :=
  match v with
  | VStr s => Normal (upper s)
  | VUndefined | VNull =>
      Throw (type_error ("Cannot read properties of " ++ to_string v
                         ++ " (reading 'toUpperCase')"))
  | _ => Throw (type_error "toUpperCase is not a function")
  end.

(** [v.startsWith(p)]: only strings have the method. *)
Definition startsWith (v : value) (p : string) : completion bool :=
  match v with
  | VStr s => Normal (starts_with p s)
  | VUndefined | VNull =>
      Throw (type_error ("Cannot read properties of " ++ to_string v
                         ++ " (reading 'startsWith')"))
  | _ => Throw (type_error "startsWith is not a function")
  end.

(** [v.indexOf(x) !== -1]: arrays search by strict equality, strings by
    substring; nothing else has the method. *)
Definition includes (v x : value) : completion bool :=
  match v with
  | VArr items => Normal (existsb (strict_eq x) items)
  | VStr s => Normal (bool_decide (is_Some (String.index 0 (to_string x) s)))
  | VUndefined | VNull =>
      Throw (type_error ("Cannot read properties of " ++ to_string v
                         ++ " (reading 'indexOf')"))
  | _ => Throw (type_error "indexOf is not a function")
  end.

(** ** The bot *)

(** Callables the engine holds.  [Fn] is a function supplied by the user;
    [Named] is a string standing for a registered callback; [Guarded] is
    the wrapper [(m, c) => { if (match(c, m, conditionals)) f(m, c) }] that
    [on] and [onText] build; [Resume] is the closure [ask] hands to
    [onReply]. *)
Inductive callback : Type :=
| Fn (name : string)
| Named (name : string)
| Guarded (conditionals : value) (f : callback)
| Resume (id : Z) (convId : value) (cb : callback).

Record text_listener := TextListener { tl_regexp : value; tl_callback : callback }.

Record reply_listener := ReplyListener {
  rl_id : Z;
  rl_chatId : value;
  rl_messageId : value;
  rl_callback : callback
}.

Inductive middleware : Type :=
| ignoreSelfMiddleware
| ignoreBotsMiddleware
| UserMiddleware (name : string).

Record bot := Bot {
  auth : value;
  secret : value;
  uid : value;
  preloadOrganizations : bool;
  onlyFirstMatch : bool;
  ignoreBots : bool;
  ignoreSelf : bool;
  receive : list middleware;
  _conversations : gmap string value;
  _organizations : gmap string value;
  _registeredCallbacks : gmap string string;
  _textRegexpCallbacks : list text_listener;
  _replyListenerId : Z;
  _replyListeners : list reply_listener
}.

Definition with_conversations (f : gmap string value -> gmap string value) (b : bot) : bot :=
  Bot (auth b) (secret b) (uid b) (preloadOrganizations b) (onlyFirstMatch b) (ignoreBots b)
      (ignoreSelf b) (receive b) (f (_conversations b)) (_organizations b)
      (_registeredCallbacks b) (_textRegexpCallbacks b) (_replyListenerId b) (_replyListeners b).

Definition with_organizations (f : gmap string value -> gmap string value) (b : bot) : bot :=
  Bot (auth b) (secret b) (uid b) (preloadOrganizations b) (onlyFirstMatch b) (ignoreBots b)
      (ignoreSelf b) (receive b) (_conversations b) (f (_organizations b))
      (_registeredCallbacks b) (_textRegexpCallbacks b) (_replyListenerId b) (_replyListeners b).

Definition with_registeredCallbacks (f : gmap string string -> gmap string string) (b : bot) : bot :=
  Bot (auth b) (secret b) (uid b) (preloadOrganizations b) (onlyFirstMatch b) (ignoreBots b)
      (ignoreSelf b) (receive b) (_conversations b) (_organizations b)
      (f (_registeredCallbacks b)) (_textRegexpCallbacks b) (_replyListenerId b) (_replyListeners b).

Definition with_textRegexpCallbacks (f : list text_listener -> list text_listener) (b : bot) : bot :=
  Bot (auth b) (secret b) (uid b) (preloadOrganizations b) (onlyFirstMatch b) (ignoreBots b)
      (ignoreSelf b) (receive b) (_conversations b) (_organizations b)
      (_registeredCallbacks b) (f (_textRegexpCallbacks b)) (_replyListenerId b) (_replyListeners b).

Definition with_replyListenerId (f : Z -> Z) (b : bot) : bot :=
  Bot (auth b) (secret b) (uid b) (preloadOrganizations b) (onlyFirstMatch b) (ignoreBots b)
      (ignoreSelf b) (receive b) (_conversations b) (_organizations b)
      (_registeredCallbacks b) (_textRegexpCallbacks b) (f (_replyListenerId b)) (_replyListeners b).

Definition with_replyListeners (f : list reply_listener -> list reply_listener) (b : bot) : bot :=
  Bot (auth b) (secret b) (uid b) (preloadOrganizations b) (onlyFirstMatch b) (ignoreBots b)
      (ignoreSelf b) (receive b) (_conversations b) (_organizations b)
      (_registeredCallbacks b) (_textRegexpCallbacks b) (_replyListenerId b) (f (_replyListeners b)).

Definition with_receive (f : list middleware -> list middleware) (b : bot) : bot :=
  Bot (auth b) (secret b) (uid b) (preloadOrganizations b) (onlyFirstMatch b) (ignoreBots b)
      (ignoreSelf b) (f (receive b)) (_conversations b) (_organizations b)
      (_registeredCallbacks b) (_textRegexpCallbacks b) (_replyListenerId b) (_replyListeners b).

(** What a receive step does with its continuation: [next()], [next(err)],
    or no call at all. *)
Inductive verdict : Type :=
| Next
| NextErr (err : value)
| Halt.

(** Everything the engine takes from outside this module. *)
Record environment := Environment {
  getSignature : value -> value -> value;
  JSON_stringify : value -> value;
  jwt_decode : value -> value;
  env_SECRET : value;
  handler : string -> list value -> bot -> completion unit * bot;
  step : string -> value -> bot -> completion verdict * bot
}.

(** ** The log and the monad *)

(** The log.  [Emit] is a call of [this.emit]; [Call] the entry into a
    user-supplied function; [FireText] the call [callback(message, ctx)] made
    for a text trigger and [FireReply] the call [callback(message)] made for
    a reply listener; [Send] an outbound message and [Fetch] a request for
    an organization. *)
Inductive effect : Type :=
| Emit (event : string) (args : list value)
| Call (f : string) (args : list value)
| FireText (entry : text_listener) (message ctx : value)
| FireReply (reply : reply_listener) (message : value)
| Send (conversation content : value)
| Fetch (organization : value).

Record machine := Machine { self : bot; log : list effect }.

Definition M (A : Type) : Type := machine -> completion A * machine.

Definition ret {A} (a : A) : M A := fun w => (Normal a, w).

Definition bind {A B} (m : M A) (k : A -> M B) : M B :=
  fun w => match m w with
           | (Normal a, w') => k a w'
           | (Throw e, w') => (Throw e, w')
           end.

Notation "'let*' x := e 'in' k" := (bind e (fun x => k))
  (at level 10, x name, e at level 100, k at level 200).

Definition lift {A} (c : completion A) : M A := fun w => (c, w).

Definition this : M bot := fun w => (Normal (self w), w).

Definition modify (f : bot -> bot) : M unit :=
  fun w => (Normal tt, Machine (f (self w)) (log w)).

Definition record (e : effect) : M unit :=
  fun w => (Normal tt, Machine (self w) (log w ++ [e])%list).

(** Run a function from the environment on the bot. *)
Definition foreign {A} (f : bot -> completion A * bot) : M A :=
  fun w => let '(r, b) := f (self w) in (r, Machine b (log w)).

(** [try { body } catch (e) { recover(e) }], as a rejected promise's
    [.catch] sees it. *)
Definition catch {A} (body : M A) (recover : value -> M A) : M A :=
  fun w => match body w with
           | (Normal a, w') => (Normal a, w')
           | (Throw e, w') => recover e w'
           end.

Definition cache_get (cache : gmap string value) (k : value) : value :=
  default VUndefined (cache !! to_string k).

Definition has_line_break (s : string) : bool :=
  existsb (fun a => Ascii.eqb a "010"%char || Ascii.eqb a "013"%char) (list_ascii_of_string s).

(** [key.match] against the pattern "an at-sign, then the rest of a
    one-line key": the captured rest, when there is a match. *)
Definition at_key (key : string) : option string :=
  match key with
  | String "@" r => if has_line_break r then None else Some r
  | _ => None
  end.

(** [err.toString()]. *)
Definition toString (v : value) : completion string :=
  match v with
  | VUndefined | VNull =>
      Throw (type_error ("Cannot read properties of " ++ to_string v
                         ++ " (reading 'toString')"))
  | _ => Normal (to_string v)
  end.

(** The operations every Actions Context carries. *)
Definition actions : list (string * value) :=
  [("say", VFun "say"); ("accept", VFun "accept"); ("join", VFun "join");
   ("leave", VFun "leave"); ("assign", VFun "assign"); ("notify", VFun "notify");
   ("set", VFun "set"); ("get", VFun "get"); ("ask", VFun "ask")].

Inductive outcome : Type :=
| Done (err : value)
| Aborted.

Inductive settlement : Type :=
| Resolved (v : value)
| Rejected (reason : value).

(** ** The engine *)

Section Engine.

Context (E : environment).

(** The listener the constructor subscribes to [conversation.update]. *)
Definition conversation_update (event : value) : M unit :=
  let* data := lift (get event "data") in
  let* conversation := lift (get data "conversation") in
  let* id := lift (get conversation "id") in
  let* b := this in
  if truthy (cache_get (_conversations b) id)
  then modify (with_conversations (insert (to_string id) conversation))
  else ret tt.

(** [this.emit(event, ...args)]. *)
Definition emit (event : string) (args : list value) : M unit :=
  let* _ := record (Emit event args) in
  if String.eqb event "conversation.update"
  then conversation_update (hd VUndefined args)
  else ret tt.

(** [this.send(convId, content, ...)] of the REST client. *)
Definition send (convId content : value) : M unit := record (Send convId content).

(** [command] of [_getActionsObject]. *)
Definition command (convId : value) (text : string) (meta : value) : M unit :=
  let* b := this in
  send convId (VObj [("text", VStr text); ("type", VStr "command");
                     ("user", uid b); ("meta", meta)]).

Definition registerCallback (name : string) (callback : string) : M unit :=
  modify (with_registeredCallbacks (insert name callback)).

(** The callback [onText] stores: the handler itself, or the handler
    behind its conditionals. *)
Definition guard (conditionals : option value) (callbackProto : callback) : callback :=
  match conditionals with
  | Some c => Guarded c callbackProto
  | None => callbackProto
  end.

(** [onText(triggers, conditionals, callbackProto)].  The two-argument call
    [onText(triggers, callback)] is [conditionals = None]. *)
Definition onText (triggers : value) (conditionals : option value) (callbackProto : callback)
  : M unit :=
  let triggers := match triggers with
                  | VArr items => items
                  | _ => [triggers]
                  end in
  let callback := guard conditionals callbackProto in
  modify (with_textRegexpCallbacks
            (fun l => (l ++ map (fun regexp => TextListener regexp callback) triggers)%list)).

Definition onReply (chatId messageId : value) (callback : callback) : M Z :=
  let* b := this in
  let id := _replyListenerId b + 1 in
  let* _ := modify (with_replyListenerId (fun _ => id)) in
  let* _ := modify (with_replyListeners
                      (fun l => (l ++ [ReplyListener id chatId messageId callback])%list)) in
  ret id.

Definition removeReplyListener (replyListenerId : Z) : M (option reply_listener) :=
  let* b := this in
  match list_find (fun r => rl_id r = replyListenerId) (_replyListeners b) with
  | None => ret None
  | Some (index, r) =>
      let* _ := modify (with_replyListeners (delete index)) in
      ret (Some r)
  end.

(** [_getActionsObject(convId)]; the operations are closures over [convId]
    and appear in the object as function values. *)
Definition _getActionsObject (convId : value) : M value :=
  let* b := this in
  if negb (truthy convId) || negb (truthy (cache_get (_conversations b) convId))
  then
    let* _ := emit "error" [VObj [("message", VStr ("missing conv " ++ to_string convId))]] in
    ret (VObj [])
  else
    let conversation := cache_get (_conversations b) convId in
    let organization :=
      if truthy (cache_get (_organizations b) conversation)
      then cache_get (_organizations b) conversation
      else own conversation "organization" in
    ret (VObj (assign (assign [] (own_props conversation))
                      (("organization", organization) :: actions))).

(** [get] of the Actions Context built for [convId]. *)
Definition ctx_get (convId : value) (key : string) : M value :=
  let* b := this in
  let conversation :=
    if truthy (cache_get (_conversations b) convId)
    then cache_get (_conversations b) convId else VObj [] in
  let meta :=
    if truthy (own conversation "meta") then own conversation "meta" else VObj [] in
  match at_key key with
  | Some k => if defined (own conversation k) then ret (own conversation k)
              else ret (own meta key)
  | None => ret (own meta key)
  end.

(** A call of a user-supplied function. *)
Definition call (name : string) (args : list value) : M unit :=
  let* _ := record (Call name args) in
  foreign (handler E name args).

Definition not_a_function (what : string) : value :=
  type_error (what ++ " is not a function").

(** [f(...args)] for the callables the engine holds. *)
Fixpoint apply (f : callback) (args : list value) : M unit :=
  match f with
  | Fn name => call name args
  | Named _ => lift (Throw (not_a_function "callback"))
  | Guarded conditionals g =>
      let m := hd VUndefined args in
      let c := hd VUndefined (tl args) in
      let* ok := lift (match_ c m conditionals) in
      if ok then apply g [m; c] else ret tt
  | Resume id convId cb =>
      let m := hd VUndefined args in
      let* _ := lift (get m "text") in
      let* _ := removeReplyListener id in
      let* c := _getActionsObject convId in
      match cb with
      | Named name =>
          if String.eqb name "" then lift (Throw (not_a_function "cb"))
          else
            let* b := this in
            match _registeredCallbacks b !! name with
            | Some g => call g [m; c]
            | None => lift (Throw (not_a_function "this._registeredCallbacks[cb]"))
            end
      | _ => apply cb [m; c]
      end
  end.

(** [ask] of the Actions Context built for [convId]: the question is sent;
    [ask_sent] is the callback [send] is given, run when the send settles.
    The closure it registers refers to the id [onReply] returns for it,
    which is the next value of the counter. *)
Definition ctx_ask (convId q : value) : M unit := send convId q.

Definition ask_sent (convId : value) (cb : callback) (e msg : value) : M value :=
  if truthy e then
    let* _ := emit "error" [e] in ret VUndefined
  else
    let* b := this in
    let* user := lift (get (auth b) "user") in
    let* msgid := lift (get msg "id") in
    let* _ := command convId ("/set _asked" ++ to_string user ++ " " ++ to_string msgid)
                      (VObj []) in
    let* b := this in
    let* id := onReply convId msgid (Resume (_replyListenerId b + 1) convId cb) in
    ret (VNum id).

(** ** Receive middleware *)

Definition ignoreSelf_step (payload : value) : M verdict :=
  let* event := lift (get payload "event") in
  if negb (truthy event) then
    let* _ := emit "error" [VObj [("message", VStr "Invalid payload")]] in ret Halt
  else
    let* isMessage := lift (startsWith event "message") in
    if isMessage then
      let* data := lift (get payload "data") in
      let* message := lift (get data "message") in
      let* user := lift (get message "user") in
      let* b := this in
      let* me := lift (get (auth b) "user") in
      if strict_eq user me then ret Halt else ret Next
    else ret Next.

Definition ignoreBots_step (payload : value) : M verdict :=
  let* event := lift (get payload "event") in
  if negb (truthy event) then
    let* _ := emit "error" [VObj [("code", VStr "Invalid payload")]] in ret Halt
  else
    let* isMessage := lift (startsWith event "message") in
    if isMessage then
      let* data := lift (get payload "data") in
      let* message := lift (get data "message") in
      let* role := lift (get message "role") in
      if strict_eq role (VStr "bot") then ret Halt else ret Next
    else ret Next.

Definition run_step (mw : middleware) (payload : value) : M verdict :=
  match mw with
  | ignoreSelfMiddleware => ignoreSelf_step payload
  | ignoreBotsMiddleware => ignoreBots_step payload
  | UserMiddleware name =>
      let* _ := record (Call name [payload]) in
      foreign (step E name payload)
  end.

(** [this.middleware.receive.run([this, event], done)]: the steps in
    registration order, each deciding whether the next one runs; the
    result is how [done] is reached, if at all. *)
Fixpoint run (stack : list middleware) (payload : value) : M outcome :=
  match stack with
  | [] => ret (Done VUndefined)
  | mw :: rest =>
      let* v := run_step mw payload in
      match v with
      | Halt => ret Aborted
      | NextErr err => if truthy err then ret (Done err) else run rest payload
      | Next => run rest payload
      end
  end.

(** ** Message dispatch *)

(** The guard of the text-trigger and reply phase of [_handleMessage]. *)
Definition qualifies (type : string) (message : value) : bool :=
  negb (String.eqb type "channel.notify")
  && (strict_eq (own message "type") (VStr "chat")
      || strict_eq (own message "type") (VStr "postback"))
  && truthy (own message "text")
  && (strict_eq (own message "role") (VStr "contact")
      || strict_eq (own message "role") (VStr "agent")).

(** The structural test of one trigger against the text: [exec] for a
    pattern, case-insensitive equality otherwise. *)
Definition trigger_hits (regexp text : value) : completion bool :=
  match regexp with
  | VRegExp r => Normal (re_accepts r (to_string text))
  | _ =>
      let? a := toUpperCase text in
      let? b := toUpperCase regexp in
      Normal (String.eqb a b)
  end.

(** [this._textRegexpCallbacks.some(...)]: [n] indices remain, [k] is the
    current one; the array is read afresh at every index and holes left by
    a shrinking array are skipped.  The result is the context, marked
    captured once a trigger has hit. *)
Fixpoint text_loop (n k : nat) (message ctx : value) : M value :=
  match n with
  | O => ret ctx
  | S n' =>
      let* b := this in
      match _textRegexpCallbacks b !! k with
      | None => text_loop n' (S k) message ctx
      | Some entry =>
          let* result := lift (trigger_hits (tl_regexp entry) (own message "text")) in
          if negb result then text_loop n' (S k) message ctx
          else
            let ctx' := set_prop ctx "captured" (VBool true) in
            let* _ := record (FireText entry message ctx') in
            let* _ := apply (tl_callback entry) [message; ctx'] in
            let* b' := this in
            if onlyFirstMatch b' then ret ctx'
            else text_loop n' (S k) message ctx'
      end
  end.

(** The call of a reply listener's callback: a string is looked up in the
    registered callbacks first. *)
Definition reply_call (reply : reply_listener) (message : value) : M unit :=
  match rl_callback reply with
  | Named name =>
      let* b := this in
      match _registeredCallbacks b !! name with
      | Some g => call g [message]
      | None => lift (Throw (not_a_function "callback"))
      end
  | cb => apply cb [message]
  end.

(** [this._replyListeners.forEach(...)], with the same indexing
    discipline as [text_loop]; the result is [hasReplied]. *)
Fixpoint reply_loop (n k : nat) (message : value) (hasReplied : bool) : M bool :=
  match n with
  | O => ret hasReplied
  | S n' =>
      let* b := this in
      match _replyListeners b !! k with
      | None => reply_loop n' (S k) message hasReplied
      | Some reply =>
          if strict_eq (rl_chatId reply) (own message "conversation") then
            let* _ := record (FireReply reply message) in
            let* _ := reply_call reply message in
            reply_loop n' (S k) message true
          else reply_loop n' (S k) message hasReplied
      end
  end.

(** The generic emissions at the end of [_handleMessage]. *)
Definition generic_emissions (type : string) (message ctx : value) : M unit :=
  let* _ := emit "message" [message; ctx] in
  let* _ := emit type [message; ctx] in
  let* _ :=
    if strict_eq (own message "type") (VStr "command")
       && strict_eq (own message "text") (VStr "/assign")
    then
      let* users := lift (get (own message "meta") "users") in
      let* _ := lift (get users "indexOf") in
      let* b := this in
      let* me := lift (get (auth b) "user") in
      let* found := lift (includes users me) in
      if found then emit "notify" [message; ctx] else ret tt
    else ret tt in
  let* _ :=
    if strict_eq (own message "type") (VStr "command")
       && starts_with ">" (to_string (own message "text"))
    then emit "notify" [message; ctx]
    else ret tt in
  let* _ :=
    if strict_eq (own message "type") (VStr "mention") && truthy (own message "meta")
    then
      let* b := this in
      let* me := lift (get (auth b) "user") in
      if strict_eq (own (own message "meta") "targetUser") me
      then emit "notify" [message; ctx] else ret tt
    else ret tt in
  if starts_with "message" type && truthy (own message "role")
  then emit (type ++ "." ++ to_string (own message "role")) [message; ctx]
  else ret tt.

(** The body of the first conditional of [_handleMessage], in its two
    halves: the text triggers, then ([replies]) the reply listeners when the
    conversation is marked as awaiting an answer.  The result is the
    context and [hasReplied]. *)
Definition replies (message convId ctx : value) : M (value * bool) :=
  let getter := own ctx "get" in
  let* b := this in
  let* me := lift (get (auth b) "user") in
  let* questionAsked :=
    match getter with
    | VFun _ => ctx_get convId ("_asked" ++ to_string me)
    | _ => lift (Throw (not_a_function "ctx.get"))
    end in
  if truthy questionAsked then
    let* b := this in
    let* hasReplied := reply_loop (List.length (_replyListeners b)) 0 message false in
    ret (ctx, hasReplied)
  else ret (ctx, false).

Definition triggers_and_replies (message convId ctx : value) : M (value * bool) :=
  let* b := this in
  let* ctx := text_loop (List.length (_textRegexpCallbacks b)) 0 message ctx in
  replies message convId ctx.

Definition _handleMessage (type : string) (message : value) : M unit :=
  let* convId := lift (get message "conversation") in
  let* ctx := _getActionsObject convId in
  let* r :=
    if qualifies type message
    then triggers_and_replies message convId ctx
    else ret (ctx, false) in
  if snd r then ret tt
  else generic_emissions type message (fst r).

Definition _handleEvent (type event : value) : M unit :=
  let* b := this in
  let* r := run (receive b) event in
  match r with
  | Aborted => ret tt
  | Done err =>
      if truthy err then
        emit "error" [VObj [("type", VStr "middleware");
                            ("message", VStr ("middleware receive processing error:  "
                                              ++ to_string err))]]
      else
        let* activity := lift (get event "activity") in
        let* _ := emit "activity" [activity] in
        let* isMessage := lift (startsWith type "message") in
        if isMessage && truthy (own event "data") && truthy (own (own event "data") "message")
        then _handleMessage (to_string type) (own (own event "data") "message")
        else emit (to_string type) [event]
  end.

(** ** Ingestion *)

(** [ingest(payload, signature)].  When the organization has to be
    preloaded the fetch is recorded and [ingest] returns; the two
    continuations of the fetch are [preload_settled]. *)
Definition ingest (payload signature : value) : M unit :=
  let* b := this in
  if truthy signature
     && negb (strict_eq (getSignature E (JSON_stringify E payload) (secret b)) signature)
  then emit "error" [VObj [("type", VStr "ingest");
                           ("message", VStr "Message integrity check failed")]]
  else if negb (truthy payload) || negb (truthy (own payload "event"))
  then emit "error" [VObj [("type", VStr "ingest");
                           ("message", VStr "Invalid payload, missing event")]]
  else
    let event := own payload "event" in
    let* isMessage := lift (startsWith event "message") in
    if isMessage then
      let data := own payload "data" in
      let conversation := own data "conversation" in
      if negb (truthy data) || negb (truthy conversation)
         || negb (truthy (own conversation "id"))
      then emit "error" [VObj [("type", VStr "ingest");
                               ("message", VStr "Invalid payload, missing conversation")]]
      else
        let* _ := modify (with_conversations
                            (insert (to_string (own conversation "id")) conversation)) in
        let* b := this in
        if negb (truthy (cache_get (_organizations b) (own conversation "organization")))
           && preloadOrganizations b
        then record (Fetch (own conversation "organization"))
        else _handleEvent event payload
    else if truthy (own payload "activity") then _handleEvent event payload
    else ret tt.

(** The [.then] continuation of the organization fetch. *)
Definition preload_then (payload org : value) : M unit :=
  let* id := lift (get org "id") in
  let* _ := modify (with_organizations (insert (to_string id) org)) in
  _handleEvent (own payload "event") payload.

(** The [.catch] continuation of the organization fetch. *)
Definition preload_catch (payload err : value) : M unit :=
  let* text := lift (toString err) in
  emit "error"
       [VObj [("message",
               VStr ("Could not load organization "
                     ++ to_string (own (own (own payload "data") "conversation") "organization")
                     ++ ": " ++ text))]].

(** The fetch settles: a resolved promise runs [.then], and [.catch]
    receives either the rejection or whatever [.then] threw. *)
Definition preload_settled (payload : value) (s : settlement) : M unit :=
  match s with
  | Resolved org => catch (preload_then payload org) (preload_catch payload)
  | Rejected reason => preload_catch payload reason
  end.

(** ** Construction *)

Record options := Options {
  token : value;
  opt_secret : value;
  opt_preloadOrganizations : value;
  opt_onlyFirstMatch : value;
  opt_ignoreBots : value;
  opt_ignoreSelf : value;
  opt_receive : list string
}.

(** [typeof v === 'boolean' ? v : d]. *)
Definition boolean_or (d : bool) (v : value) : bool :=
  match v with
  | VBool b => b
  | _ => d
  end.

(** The constructor, up to the fields the dispatch engine reads. *)
Definition new_ChipChat (opts : options) : completion bot :=
  let secret :=
    if truthy (opt_secret opts) then opt_secret opts
    else if truthy (env_SECRET E) then env_SECRET E
    else VBool false in
  let? auth :=
    if truthy (token opts) then
      let decoded := jwt_decode E (token opts) in
      if truthy decoded then
        let? _id := get (own decoded "payload") "_id" in
        let payload := own decoded "payload" in
        Normal (VObj [("user", _id); ("organization", own payload "organization");
                      ("iat", own payload "iat"); ("exp", own payload "exp")])
      else Normal VUndefined
    else Normal VUndefined in
  let ignoreBots := boolean_or true (opt_ignoreBots opts) in
  let ignoreSelf := boolean_or true (opt_ignoreSelf opts) in
  Normal (Bot auth secret VUndefined
              (boolean_or false (opt_preloadOrganizations opts))
              (boolean_or false (opt_onlyFirstMatch opts))
              ignoreBots ignoreSelf
              ((if ignoreSelf then [ignoreSelfMiddleware] else [])
               ++ (if ignoreBots then [ignoreBotsMiddleware] else [])
               ++ map UserMiddleware (opt_receive opts))%list
              ∅ ∅ ∅ [] 0 []).

End Engine.

(** * Vocabulary of the properties *)

(** What a run from [w] to [w'] added to the log. *)
Definition added (w w' : machine) : list effect := drop (List.length (log w)) (log w').

Definition is_error_signal (e : effect) : Prop :=
  match e with
  | Emit event _ => event = "error"
  | _ => False
  end.

Definition only_errors (e : effect) : Prop :=
  match e with
  | Emit event _ => event = "error"
  | _ => True
  end.

Definition no_reply (e : effect) : Prop :=
  match e with
  | FireReply _ _ => False
  | _ => True
  end.

Definition no_trigger (e : effect) : Prop :=
  match e with
  | FireText _ _ _ => False
  | _ => True
  end.

(** Neither a generic emission nor a call of a reply listener. *)
Definition calm (e : effect) : Prop := only_errors e /\ no_reply e.

(** The text triggers and the reply listeners whose callbacks a stretch of
    the log shows being called, in order. *)
Definition fired_triggers (l : list effect) : list text_listener :=
  omap (fun e => match e with
                 | FireText entry _ _ => Some entry
                 | _ => None
                 end) l.

Definition fired_replies (l : list effect) : list (reply_listener * value) :=
  omap (fun e => match e with
                 | FireReply reply message => Some (reply, message)
                 | _ => None
                 end) l.

(** [grows P m]: whatever [m] adds to the log satisfies [P], and nothing
    already in the log is touched. *)
Definition grows {A} (P : effect -> Prop) (m : M A) : Prop :=
  forall w r w', m w = (r, w') ->
    exists new, log w' = (log w ++ new)%list /\ Forall P new.

(** [stable m]: [m] leaves the listener list of the bot as it is. *)
Definition stable {A} (m : M A) : Prop :=
  forall w r w', m w = (r, w') -> _replyListeners (self w') = _replyListeners (self w).

(** A callback that, called for [message] with any context object,
    returns normally and leaves the trigger list and the first-match
    switch as they are. *)
Definition benign (E : environment) (cb : callback) (message : value) : Prop :=
  forall props w, exists w',
    apply E cb [message; VObj props] w = (Normal tt, w')
    /\ _textRegexpCallbacks (self w') = _textRegexpCallbacks (self w)
    /\ onlyFirstMatch (self w') = onlyFirstMatch (self w).

(** A text trigger that either misses the message or has a callback that
    returns normally and leaves the bot as it is. *)
Definition inert (E : environment) (entry : text_listener) (message : value) : Prop :=
  trigger_hits (tl_regexp entry) (own message "text") = Normal false
  \/ (trigger_hits (tl_regexp entry) (own message "text") = Normal true
      /\ forall props w, exists w',
           apply E (tl_callback entry) [message; VObj props] w = (Normal tt, w')
           /\ self w' = self w).

(** A reply listener whose callback, called with [message], returns
    normally and leaves the listener list as it is. *)
Definition steady (E : environment) (reply : reply_listener) (message : value) : Prop :=
  forall w, exists w',
    reply_call E reply message w = (Normal tt, w')
    /\ _replyListeners (self w') = _replyListeners (self w).

(** The test [reply.chatId === message.conversation] of the reply walk. *)
Definition same_conversation (message : value) (reply : reply_listener) : bool :=
  strict_eq (rl_chatId reply) (own message "conversation").

(** The marker [ask] leaves in the metadata of a conversation, as [get] of
    the Actions Context reads it for this bot. *)
Definition awaiting_answer (b : bot) (convId : value) : bool :=
  truthy (own (own (cache_get (_conversations b) convId) "meta")
              ("_asked" ++ to_string (own (auth b) "user"))).

(** [removeReplyListener] on the list itself. *)
Definition without (id : Z) (l : list reply_listener) : list reply_listener :=
  match list_find (fun r => rl_id r = id) l with
  | Some (index, _) => delete index l
  | None => l
  end.

(** The end of [_handleMessage]: what is done with the outcome of the
    trigger and reply phase. *)
Definition conclude (type : string) (message : value) (r : value * bool) : M unit :=
  if snd r then ret tt else generic_emissions type message (fst r).

Definition conversation_of (payload : value) : value := own (own payload "data") "conversation".

(** A payload that [ingest] takes as message-shaped and valid: the event
    name starts with "message" and the conversation carries an id. *)
Definition message_shaped (payload : value) : bool :=
  match own payload "event" with
  | VStr event => starts_with "message" event
  | _ => false
  end
  && truthy (own (own (own payload "data") "conversation") "id").

(** The signature check of [ingest] lets the payload through. *)
Definition signature_accepted (E : environment) (b : bot) (payload signature : value) : bool :=
  negb (truthy signature)
  || strict_eq (getSignature E (JSON_stringify E payload) (secret b)) signature.

(** The state [ingest] leaves behind when it has asked for the
    organization of the payload's conversation. *)
Definition pending (payload : value) (w : machine) : machine :=
  Machine (with_conversations
             (insert (to_string (own (conversation_of payload) "id"))
                     (conversation_of payload)) (self w))
          (log w ++ [Fetch (own (conversation_of payload) "organization")])%list.

Definition cache_organization (organization : value) (w : machine) : machine :=
  Machine (with_organizations
             (insert (to_string (own organization "id")) organization) (self w))
          (log w).

Definition missing_event_error : effect :=
  Emit "error" [VObj [("type", VStr "ingest");
                      ("message", VStr "Invalid payload, missing event")]].

Definition integrity_error : effect :=
  Emit "error" [VObj [("type", VStr "ingest");
                      ("message", VStr "Message integrity check failed")]].

Definition missing_conv_error (convId : value) : effect :=
  Emit "error" [VObj [("message", VStr ("missing conv " ++ to_string convId))]].

Definition preload_error (payload : value) (text : string) : effect :=
  Emit "error"
       [VObj [("message",
               VStr ("Could not load organization "
                     ++ to_string (own (conversation_of payload) "organization")
                     ++ ": " ++ text))]].

(** * Sample data

    Concrete bots, payloads and environments on which the properties below
    are exercised. *)

(** The identity of the sample bot, and the decoded form of its token. *)
Definition bot_identity : value :=
  VObj [("user", VStr "bot1"); ("organization", VStr "o1");
        ("iat", VNum 1564569303); ("exp", VNum 1564655703)].

Definition decoded_token : value :=
  VObj [("header", VObj [("alg", VStr "HS256"); ("typ", VStr "JWT")]);
        ("payload", VObj [("_id", VStr "bot1"); ("organization", VStr "o1");
                          ("scope", VStr "bot"); ("iat", VNum 1564569303);
                          ("exp", VNum 1564655703)]);
        ("signature", VStr "2q6i")].

(** An environment whose user functions do nothing and whose middleware
    steps all continue; it decodes one token, and its signature helper is
    a stand-in. *)
Definition quiet : environment :=
  Environment (fun data _ => VStr ("sha256=" ++ to_string data))
              (fun v => VStr (to_string v))
              (fun t => if strict_eq t (VStr "t0k3n") then decoded_token else VNull)
              VUndefined
              (fun _ _ b => (Normal tt, b))
              (fun _ _ b => (Normal Next, b)).

(** The options of the scenario (both ignore switches off), and the bot
    the constructor builds from them for the identity [me]. *)
Definition scenario_options : options :=
  Options (VStr "t0k3n") (VStr "s3cret") VUndefined VUndefined (VBool false) (VBool false) [].

Definition fresh_bot (me : value) : bot :=
  Bot me (VStr "s3cret") VUndefined false false false false [] ∅ ∅ ∅ [] 0 [].

Definition ticket_message : value := VObj [("status", VStr "open")].
Definition ticket_context : value := VObj [("meta", VObj [("status", VStr "closed")])].
Definition ticket_conditionals : value := VObj [("status", VStr "closed")].

(** The end-to-end scenario of the specification. *)
Definition hello_message : value :=
  VObj [("conversation", VStr "c1"); ("user", VStr "u1"); ("role", VStr "contact");
        ("type", VStr "chat"); ("text", VStr "hi")].

Definition hello_conversation : value :=
  VObj [("id", VStr "c1"); ("organization", VStr "o1")].

Definition hello_payload : value :=
  VObj [("event", VStr "message.create.contact.chat");
        ("data", VObj [("conversation", hello_conversation); ("message", hello_message)])].

Definition hello_type : string := "message.create.contact.chat".

(** The organization ["o1"] as the platform would return it. *)
Definition acme : value := VObj [("id", VStr "o1"); ("name", VStr "Acme")].

(** The context built for conversation ["c1"] of the scenario, and the
    same context once a text trigger has marked it. *)
Definition hello_ctx : value :=
  VObj ([("id", VStr "c1"); ("organization", VStr "o1")] ++ actions)%list.

Definition captured_ctx : value := set_prop hello_ctx "captured" (VBool true).

(** A bot that knows conversation ["c1"] and has one text trigger. *)
Definition greeting : text_listener := TextListener (VStr "hi") (Fn "greet").

Definition greeter_bot : bot :=
  with_textRegexpCallbacks (fun _ => [greeting])
    (with_conversations (insert "c1" hello_conversation) (fresh_bot bot_identity)).

(** Two triggers that both match the text ["hi"]: a literal compared
    without regard to case, and a pattern. *)
Definition literal_HI : value := VStr "HI".
Definition pattern_h : value := VRegExp (RegExp "^h" (starts_with "h")).

Definition known_bot (onlyFirst : bool) : bot :=
  with_conversations (insert "c1" hello_conversation)
    (Bot bot_identity (VStr "s3cret") VUndefined false onlyFirst false false [] ∅ ∅ ∅ [] 0 []).

Definition registered (onlyFirst : bool) : machine :=
  snd (bind (onText literal_HI None (Fn "greet"))
            (fun _ => onText pattern_h None (Fn "wave"))
            (Machine (known_bot onlyFirst) [])).

(** Conversation ["c1"] marked as awaiting an answer to this bot, and a
    bot that waits for that answer with two listeners. *)
Definition asked_conversation : value :=
  VObj [("id", VStr "c1"); ("organization", VStr "o1");
        ("meta", VObj [("_askedbot1", VStr "m7")])].

Definition asked_ctx : value :=
  VObj ([("id", VStr "c1"); ("organization", VStr "o1");
         ("meta", VObj [("_askedbot1", VStr "m7")])] ++ actions)%list.

Definition first_listener : reply_listener :=
  ReplyListener 1 (VStr "c1") (VStr "m7") (Fn "resume").

Definition second_listener : reply_listener :=
  ReplyListener 2 (VStr "c1") (VStr "m7") (Fn "also").

Definition waiting_bot : bot :=
  with_replyListeners (fun _ => [first_listener; second_listener])
    (with_replyListenerId (fun _ => 2)
       (with_conversations (insert "c1" asked_conversation) (fresh_bot bot_identity))).

(** A bot that knows the marked conversation, before anything is
    registered; then with one listener registered through [onReply], and
    with two questions asked through [ask]. *)
Definition marked_bot : bot :=
  with_conversations (insert "c1" asked_conversation) (fresh_bot bot_identity).

Definition listening : machine :=
  snd (onReply (VStr "c1") (VStr "m7") (Fn "resume") (Machine marked_bot [])).

Definition asked_twice : machine :=
  snd (bind (ask_sent (VStr "c1") (Fn "resume") VUndefined (VObj [("id", VStr "m7")]))
            (fun _ => ask_sent (VStr "c1") (Fn "again") VUndefined (VObj [("id", VStr "m8")]))
            (Machine marked_bot [])).

(** The scenario with organization preloading switched on. *)
Definition preloading_bot : bot :=
  Bot bot_identity (VStr "s3cret") VUndefined true false false false [] ∅ ∅ ∅ [] 0 [].

(** A bot that knows conversation ["c1"] and has its organization cached. *)
Definition preloaded_bot : bot :=
  with_organizations (insert "o1" acme)
    (with_conversations (insert "c1" hello_conversation) (fresh_bot bot_identity)).

(** The message of the scenario without its [conversation] field. *)
Definition orphan_message : value :=
  VObj [("user", VStr "u1"); ("role", VStr "contact"); ("type", VStr "chat");
        ("text", VStr "hi")].

Definition orphan_payload : value :=
  VObj [("event", VStr "message.create.contact.chat");
        ("data", VObj [("conversation", hello_conversation); ("message", orphan_message)])].

(** Constructor options that leave everything at its default and give no
    token. *)
Definition no_options : options :=
  Options VUndefined VUndefined VUndefined VUndefined VUndefined VUndefined [].

(** The bot those options construct in the quiet environment. *)
Definition anonymous_bot : bot :=
  Bot VUndefined (VBool false) VUndefined false false true true
      [ignoreSelfMiddleware; ignoreBotsMiddleware] ∅ ∅ ∅ [] 0 [].

(** * The rest of the module

    What the module has besides the dispatch path: the remaining pieces of
    the constructor, [use], the operations of the Actions Context,
    [conversation], and the handler of the echo example module. *)

(** [v.charAt(0) !== '/'], for a value that is not [undefined] or [null]:
    only strings have the method. *)
Definition lacks_leading_slash (v : value) : completion bool :=
  match v with
  | VStr s => Normal (negb (starts_with "/" s))
  | _ => Throw (type_error "webhookPath.charAt is not a function")
  end.

(** The constructor's [this.webhook], from [options.webhook] and the
    environment variable [WEBHOOK_PATH]. *)
Definition webhook (opt_webhook env_WEBHOOK_PATH : value) : completion value :=
  let webhookPath :=
    if truthy opt_webhook then opt_webhook
    else if truthy env_WEBHOOK_PATH then env_WEBHOOK_PATH
    else VStr "/" in
  let? lacking := lacks_leading_slash webhookPath in
  if lacking then Normal (VStr ("/" ++ to_string webhookPath)) else Normal webhookPath.

(** [use(...args)], for steps supplied by the user. *)
Definition use (steps : list string) : M unit :=
  modify (with_receive (fun l => (l ++ map UserMiddleware steps)%list)).

(** [metaAssign] of [_getActionsObject]. *)
Definition metaAssign (users : value) : value :=
  if negb (truthy users) then VObj []
  else if negb (truthy (own users "length")) then VObj []
  else VObj [("meta", VObj [("users", match users with
                                      | VArr _ => users
                                      | _ => VArr [users]
                                      end)])].

(** [arrVal] of [metaNotify]. *)
Definition arrVal (param : value) : value :=
  if negb (truthy param) || negb (truthy (own param "length")) then VNull
  else match param with
       | VArr _ => param
       | _ => VArr [param]
       end.

(** [metaNotify] of [_getActionsObject]. *)
Definition metaNotify (channels organizations : value) : completion value :=
  if negb (truthy channels) && negb (truthy organizations) then Normal (VObj [])
  else
    let? channels_length := get channels "length" in
    let? both_empty :=
      (if negb (truthy channels_length)
       then let? organizations_length := get organizations "length" in
            Normal (negb (truthy organizations_length))
       else Normal false) in
    if both_empty then Normal (VObj [])
    else Normal (VObj [("meta", VObj [("channels", arrVal channels);
                                      ("organizations", arrVal organizations)])]).

(** The operations of the Actions Context built for [convId]. *)
Definition ctx_say (convId content : value) : M unit := send convId content.

Definition ctx_accept (convId : value) : M unit := command convId "/accept" (VObj []).

Definition ctx_join (convId : value) : M unit := command convId "/join" (VObj []).

Definition ctx_leave (convId : value) : M unit := command convId "/leave" (VObj []).

Definition ctx_assign (convId users : value) : M unit :=
  command convId "/assign" (metaAssign users).

Definition ctx_notify (convId channels orgs : value) : M unit :=
  let* meta := lift (metaNotify channels orgs) in
  command convId "/notify" meta.

(** [o[k] = v] in strict mode, on a value that is not [undefined] or
    [null]: an object takes the property, a primitive throws.  Arrays,
    patterns and functions take it too in JavaScript; the value type has no
    room for it there and they are left as they are. *)
Definition put (o : value) (k : string) (v : value) : completion value :=
  match o with
  | VObj props => Normal (VObj (set_assoc k v props))
  | VBool _ | VNum _ | VStr _ =>
      Throw (type_error ("Cannot create property '" ++ k ++ "' on " ++ to_string o))
  | _ => Normal o
  end.

(** [set] of the Actions Context built for [convId].  The cached
    conversation, or its [meta], is written in place; a conversation or a
    [meta] that is missing is replaced by a fresh object that is written
    and dropped. *)
Definition ctx_set (convId : value) (key : string) (val : value) : M unit :=
  let* b := this in
  let cached := cache_get (_conversations b) convId in
  let conversation := if truthy cached then cached else VObj [] in
  let top := match at_key key with
             | Some k => if truthy (own conversation k) then Some k else None
             | None => None
             end in
  let* _ :=
    match top with
    | Some k =>
        let* written := lift (put conversation k val) in
        modify (with_conversations (insert (to_string convId) written))
    | None =>
        if truthy cached && truthy (own cached "meta") then
          let* written := lift (put (own cached "meta") key val) in
          modify (with_conversations
                    (insert (to_string convId) (set_prop cached "meta" written)))
        else ret tt
    end in
  command convId ("/set " ++ key ++ " " ++ to_string val) (VObj []).

(** How a call of [conversation] ends: with an error (the promise is
    rejected, or the callback has been called with it), with the context
    (the promise is resolved), with the callback scheduled for the next
    tick, or with a request to the REST client whose answer goes to
    [conversation_finish]. *)
Inductive conversation_result : Type :=
| Failed (err : value)
| Resolved_with (ctx : value)
| Scheduled (cb : string) (ctx : value)
| Requested (id : value).

(** [finish] of [conversation]. *)
Definition conversation_finish (cb : option string) (conv : value) : M conversation_result :=
  let* id := lift (get conv "id") in
  let* _ := modify (with_conversations (insert (to_string id) conv)) in
  let* ctx := _getActionsObject id in
  match cb with
  | None => ret (Resolved_with ctx)
  | Some f => ret (Scheduled f ctx)
  end.

Section Rest.

Context (E : environment).

(** [conversation(conversation, cb)]. *)
Definition conversation (conversation : value) (cb : option string) : M conversation_result :=
  if negb (truthy conversation) then
    let text := "missing conversation " ++ to_string conversation in
    let* _ := emit "error" [VObj [("message", VStr text)]] in
    let err := VError "Error" text in
    match cb with
    | Some f => let* _ := call E f [err] in ret (Failed err)
    | None => ret (Failed err)
    end
  else
    match conversation with
    | VStr _ => ret (Requested conversation)
    | _ =>
        if truthy (own conversation "id") then conversation_finish cb conversation
        else ret (Requested conversation)
    end.

End Rest.

(** The handler of the echo example module, for the context [chat] built
    for [convId]. *)
Definition echo (payload chat convId : value) : M unit :=
  let* text := lift (get payload "text") in
  let* getter := lift (get chat "get") in
  let* captured :=
    match getter with
    | VFun _ => ctx_get convId "captured"
    | _ => lift (Throw (not_a_function "chat.get"))
    end in
  if truthy captured then ret tt
  else
    let* meta := lift (get chat "meta") in
    let* flag := lift (get meta "captured") in
    if truthy flag then ret tt
    else
      match own chat "say" with
      | VFun _ => ctx_say convId (VStr ("Echo: " ++ to_string text))
      | _ => lift (Throw (not_a_function "chat.say"))
      end.

(** * Vocabulary of the further properties *)

(** An expectation [matcher] compares by strict equality. *)
Definition scalar (t : value) : bool :=
  match t with
  | VStr _ | VNum _ | VBool _ => true
  | _ => false
  end.

(** The built-in receive steps. *)
Definition builtin (mw : middleware) : bool :=
  match mw with
  | UserMiddleware _ => false
  | _ => true
  end.

Definition missing_conversation_error : effect :=
  Emit "error" [VObj [("type", VStr "ingest");
                      ("message", VStr "Invalid payload, missing conversation")]].

Definition middleware_error (err : value) : effect :=
  Emit "error" [VObj [("type", VStr "middleware");
                      ("message", VStr ("middleware receive processing error:  "
                                        ++ to_string err))]].

(** The state [ingest] is in once it has cached the conversation of a
    message-shaped payload. *)
Definition cached (payload : value) (w : machine) : machine :=
  Machine (with_conversations
             (insert (to_string (own (conversation_of payload) "id"))
                     (conversation_of payload)) (self w))
          (log w).

(** * Further sample data *)

(** A resource-activity payload, and an update of conversation ["c1"]. *)
Definition login_payload : value :=
  VObj [("event", VStr "user.login"); ("activity", VStr "login");
        ("data", VObj [("user", VObj [("id", VStr "u1")])])].

Definition renamed_conversation : value :=
  VObj [("id", VStr "c1"); ("organization", VStr "o1"); ("name", VStr "Support")].

Definition update_payload : value :=
  VObj [("event", VStr "conversation.update"); ("activity", VStr "update");
        ("data", VObj [("conversation", renamed_conversation)])].

(** The bot of the scenario with the two built-in steps in place. *)
Definition default_bot : bot :=
  Bot bot_identity (VStr "s3cret") VUndefined false false true true
      [ignoreSelfMiddleware; ignoreBotsMiddleware] ∅ ∅ ∅ [] 0 [].

Definition default_options : options :=
  Options (VStr "t0k3n") (VStr "s3cret") VUndefined VUndefined VUndefined VUndefined [].

(** The message of the scenario written by the bot itself, and by another
    bot. *)
Definition own_message : value :=
  VObj [("conversation", VStr "c1"); ("user", VStr "bot1"); ("role", VStr "agent");
        ("type", VStr "chat"); ("text", VStr "hi")].

Definition own_payload : value :=
  VObj [("event", VStr "message.create.agent.chat");
        ("data", VObj [("conversation", hello_conversation); ("message", own_message)])].

Definition robot_message : value :=
  VObj [("conversation", VStr "c1"); ("user", VStr "bot2"); ("role", VStr "bot");
        ("type", VStr "chat"); ("text", VStr "hi")].

Definition robot_payload : value :=
  VObj [("event", VStr "message.create.bot.chat");
        ("data", VObj [("conversation", hello_conversation); ("message", robot_message)])].

(** An environment with two user steps: ["block"] never calls its
    continuation, ["fail"] calls it with an error. *)
Definition strict : environment :=
  Environment (getSignature quiet) (JSON_stringify quiet) (jwt_decode quiet) VUndefined
              (handler quiet)
              (fun name _ b =>
                 if String.eqb name "block" then (Normal Halt, b)
                 else if String.eqb name "fail" then (Normal (NextErr (VStr "quota")), b)
                 else (Normal Next, b)).

(** A message payload that names no conversation. *)
Definition homeless_payload : value :=
  VObj [("event", VStr "message.create.contact.chat");
        ("data", VObj [("message", hello_message)])].

(** The ids of the registered reply listeners are pairwise distinct and
    none is above the counter [onReply] draws them from. *)
Definition distinct_ids (b : bot) : Prop :=
  NoDup (map rl_id (_replyListeners b))
  /\ Forall (fun r => rl_id r <= _replyListenerId b) (_replyListeners b).

(** The listeners other than the one registered under [id]. *)
Definition others (id : Z) (l : list reply_listener) : list reply_listener :=
  filter (fun r => rl_id r <> id) l.

(** An event emitted, as opposed to a handler called or a request made. *)
Definition is_emission (e : effect) : Prop :=
  match e with
  | Emit _ _ => True
  | _ => False
  end.

(** * Properties *)

(** ** The conditional matcher *)

Lemma get_own (o : value) (k : string) : nullish o = false -> get o k = Normal (own o k).
Proof. by destruct o. Qed.

Lemma matcher_array_any (v : value) (items : list value) :
  matcher v (VArr items) = existsb (matcher v) items.
Proof.
  cbn [matcher].
  assert (H : forall acc,
             fold_left (fun acc curr => if matcher v curr then true else acc) items acc
             = (acc || existsb (matcher v) items)%bool).
  { induction items as [|x r IH]; intros acc; cbn [fold_left existsb].
    - by rewrite orb_false_r.
    - rewrite IH. destruct (matcher v x), acc; cbn; try done; by destruct (existsb _ r). }
  by rewrite H.
Qed.

Lemma reducer_key_passes (c m conditionals : value) (acc : bool) (key : string) :
  nullish m = false -> nullish c = false ->
  reducer c m conditionals acc key = Normal (acc && key_passes c m conditionals key).
Proof.
  intros Hm Hc. unfold reducer, key_passes, passes_on_message, passes_on_context,
    passes_on_meta.
  destruct acc; [|done]. cbn [andb].
  rewrite (get_own m) by done. cbn [cbind].
  destruct (truthy (own m key) && matcher (own m key) (own conditionals key)); [done|].
  cbn [orb]. destruct (starts_with "@" key).
  - rewrite (get_own c) by done. cbn [cbind andb].
    destruct (matcher (own c (strip_at key)) (own conditionals key)); [done|].
    rewrite (get_own c) by done. cbn [cbind orb].
    by destruct (truthy (own c "meta") && matcher _ _).
  - cbn [cbind andb orb]. rewrite (get_own c) by done. cbn [cbind].
    by destruct (truthy (own c "meta") && matcher _ _).
Qed.

Lemma reduce_reducer (c m conditionals : value) (keys : list string) (acc : bool) :
  nullish m = false -> nullish c = false ->
  reduce (reducer c m conditionals) keys acc
  = Normal (acc && forallb (key_passes c m conditionals) keys).
Proof.
  intros Hm Hc. revert acc. induction keys as [|k r IH]; intros acc; cbn [reduce forallb].
  - by rewrite andb_true_r.
  - rewrite reducer_key_passes by done. cbn [cbind]. rewrite IH. by rewrite andb_assoc.
Qed.




(** ** Ingestion: the two rejections *)

(** C4.  A payload without an [event] field, arriving with no signature or
    with the matching one, makes [ingest] emit exactly one error signal,
    the missing-event one, and nothing else happens: the bot (caches
    included) is unchanged, no middleware step and no handler is called,
    no other event is emitted. *)
Theorem ingest_missing_event (E : environment) (payload signature : value) (w : machine) :
  own payload "event" = VUndefined ->
  truthy signature = false
  \/ strict_eq (getSignature E (JSON_stringify E payload) (secret (self w))) signature = true ->
  ingest E payload signature w
  = (Normal tt, Machine (self w) (log w ++ [missing_event_error])).
Proof.
  intros Hev Hsig. unfold ingest, bind, this. cbn [self].
  assert (Hs : truthy signature
               && negb (strict_eq (getSignature E (JSON_stringify E payload)
                                                (secret (self w))) signature) = false).
  { destruct Hsig as [->| ->]; [done|]. by rewrite andb_false_r. }
  rewrite Hs, Hev. cbn [truthy negb]. rewrite orb_true_r. reflexivity.
Qed.

Lemma ingest_missing_event_witness :
  ingest quiet (VObj [("data", VObj [])]) VUndefined
         (Machine (fresh_bot bot_identity) [])
  = (Normal tt, Machine (fresh_bot bot_identity)
                        [missing_event_error]).
Proof.
  exact (ingest_missing_event quiet (VObj [("data", VObj [])]) VUndefined
           (Machine (fresh_bot bot_identity) [])
           eq_refl (or_introl eq_refl)).
Defined.

(** C5.  When a signature is supplied and differs from the one computed
    over the serialized payload with the bot's secret, [ingest] emits the
    integrity error and does nothing else, whatever the payload is: the bot
    is unchanged and the log grows by that one signal. *)
Theorem ingest_integrity_failure (E : environment) (payload signature : value) (w : machine) :
  truthy signature = true ->
  strict_eq (getSignature E (JSON_stringify E payload) (secret (self w))) signature = false ->
  ingest E payload signature w
  = (Normal tt, Machine (self w) (log w ++ [integrity_error])).
Proof.
  intros Hs Hne. unfold ingest, bind, this. cbn [self]. rewrite Hs, Hne. reflexivity.
Qed.

Lemma ingest_integrity_failure_witness :
  ingest quiet hello_payload (VStr "sha256=forged") (Machine (fresh_bot bot_identity) [])
  = (Normal tt, Machine (fresh_bot bot_identity) [integrity_error]).
Proof.
  exact (ingest_integrity_failure quiet hello_payload (VStr "sha256=forged")
           (Machine (fresh_bot bot_identity) []) eq_refl eq_refl).
Defined.

(** ** How the log grows *)

Lemma bind_inv {A B} (m : M A) (k : A -> M B) (w : machine) (r : completion B) (w' : machine) :
  bind m k w = (r, w') ->
  (exists a w1, m w = (Normal a, w1) /\ k a w1 = (r, w'))
  \/ (exists e, m w = (Throw e, w') /\ r = Throw e).
Proof.
  unfold bind. destruct (m w) as [[a|e] w1]; intros H.
  - left. eauto.
  - right. injection H as <- <-. eauto.
Qed.

Lemma grows_silent {A} (P : effect -> Prop) (m : M A) :
  (forall w r w', m w = (r, w') -> log w' = log w) -> grows P m.
Proof.
  intros H w r w' Hm. exists []. split; [|constructor].
  rewrite (H _ _ _ Hm). by rewrite app_nil_r.
Qed.

Lemma grows_ret {A} (P : effect -> Prop) (a : A) : grows P (ret a).
Proof. apply grows_silent. intros w r w' [= <- <-]. done. Qed.

Lemma grows_lift {A} (P : effect -> Prop) (c : completion A) : grows P (lift c).
Proof. apply grows_silent. intros w r w' [= <- <-]. done. Qed.

Lemma grows_this (P : effect -> Prop) : grows P this.
Proof. apply grows_silent. intros w r w' [= <- <-]. done. Qed.

Lemma grows_modify (P : effect -> Prop) (f : bot -> bot) : grows P (modify f).
Proof. apply grows_silent. intros w r w' [= <- <-]. done. Qed.

Lemma grows_foreign {A} (P : effect -> Prop) (f : bot -> completion A * bot) :
  grows P (foreign f).
Proof.
  apply grows_silent. intros w r w'. unfold foreign.
  destruct (f (self w)) as [r0 b]. intros [= <- <-]. done.
Qed.

Lemma grows_record (P : effect -> Prop) (e : effect) : P e -> grows P (record e).
Proof.
  intros He w r w' [= <- <-]. exists [e]. split; [done|]. by constructor.
Qed.

Lemma grows_bind {A B} (P : effect -> Prop) (m : M A) (k : A -> M B) :
  grows P m -> (forall a, grows P (k a)) -> grows P (bind m k).
Proof.
  intros Hm Hk w r w' H.
  destruct (bind_inv _ _ _ _ _ H) as [(a & w1 & H1 & H2)|(e & H1 & ->)].
  - destruct (Hm _ _ _ H1) as (n1 & E1 & F1).
    destruct (Hk a _ _ _ H2) as (n2 & E2 & F2).
    exists (n1 ++ n2)%list. split.
    + by rewrite E2, E1, app_assoc.
    + by apply Forall_app.
  - exact (Hm _ _ _ H1).
Qed.

Lemma grows_weaken {A} (P Q : effect -> Prop) (m : M A) :
  (forall e, P e -> Q e) -> grows P m -> grows Q m.
Proof.
  intros HPQ Hm w r w' H. destruct (Hm _ _ _ H) as (new & E1 & F1).
  exists new. split; [done|]. eapply Forall_impl; eauto.
Qed.

Ltac grows_step :=
  match goal with
  | |- grows _ (bind _ _) => apply grows_bind; [|intros ?]
  | |- grows _ (ret _) => apply grows_ret
  | |- grows _ (lift _) => apply grows_lift
  | |- grows _ this => apply grows_this
  | |- grows _ (modify _) => apply grows_modify
  | |- grows _ (foreign _) => apply grows_foreign
  | |- grows _ (record _) => apply grows_record
  | |- grows _ (if ?c then _ else _) => destruct c
  | |- grows _ (match ?c with _ => _ end) => destruct c
  end.

Section LogShape.

Context (E : environment) (P : effect -> Prop).

(** The signals a phase of the dispatch may add without being a generic
    emission: errors and entries into user functions. *)
Hypothesis P_error : forall args, P (Emit "error" args).
Hypothesis P_call : forall name args, P (Call name args).

Lemma grows_emit_error (args : list value) : grows P (emit "error" args).
Proof. unfold emit. cbn. repeat grows_step; auto. Qed.

Lemma grows_getActionsObject (convId : value) : grows P (_getActionsObject convId).
Proof.
  unfold _getActionsObject. repeat grows_step; auto using grows_emit_error.
Qed.

Lemma grows_call (name : string) (args : list value) : grows P (call E name args).
Proof. unfold call. repeat grows_step; auto. Qed.

Lemma grows_removeReplyListener (id : Z) : grows P (removeReplyListener id).
Proof. unfold removeReplyListener. repeat grows_step. Qed.

Lemma grows_apply (f : callback) (args : list value) : grows P (apply E f args).
Proof.
  revert args. induction f as [name|name|conds g IH|id convId cb IH]; intros args;
    cbn [apply].
  - apply grows_call.
  - grows_step.
  - repeat grows_step; auto.
  - apply grows_bind; [apply grows_lift|intros _].
    apply grows_bind; [apply grows_removeReplyListener|intros _].
    apply grows_bind; [apply grows_getActionsObject|intros c].
    destruct cb; auto.
    repeat grows_step; auto using grows_call.
Qed.

Lemma grows_ctx_get (convId : value) (key : string) : grows P (ctx_get convId key).
Proof. unfold ctx_get. repeat grows_step. Qed.

Lemma grows_reply_call (reply : reply_listener) (message : value) :
  grows P (reply_call E reply message).
Proof.
  unfold reply_call. destruct (rl_callback reply) eqn:Hcb;
    try (rewrite <- Hcb; apply grows_apply).
  repeat grows_step; auto using grows_call.
Qed.

Lemma grows_text_loop (n k : nat) (message ctx : value) :
  (forall entry m c, P (FireText entry m c)) ->
  grows P (text_loop E n k message ctx).
Proof.
  intros HP. revert k ctx. induction n as [|n IH]; intros k ctx; cbn [text_loop].
  - apply grows_ret.
  - repeat grows_step; auto using grows_apply.
Qed.

Lemma grows_reply_loop (n k : nat) (message : value) (h : bool) :
  (forall reply m, P (FireReply reply m)) ->
  grows P (reply_loop E n k message h).
Proof.
  intros HP. revert k h. induction n as [|n IH]; intros k h; cbn [reply_loop].
  - apply grows_ret.
  - repeat grows_step; auto using grows_reply_call.
Qed.

End LogShape.

Lemma added_app (w w' : machine) (new : list effect) :
  log w' = (log w ++ new)%list -> added w w' = new.
Proof. intros H. unfold added. rewrite H. by rewrite drop_app_length. Qed.

Lemma grows_conversation_update (P : effect -> Prop) (event : value) :
  grows P (conversation_update event).
Proof. unfold conversation_update. repeat grows_step. Qed.

Lemma grows_emit (P : effect -> Prop) (event : string) (args : list value) :
  P (Emit event args) -> grows P (emit event args).
Proof.
  intros HP. unfold emit. repeat grows_step; auto using grows_conversation_update.
Qed.

Lemma grows_generic_emissions (P : effect -> Prop) (type : string) (message ctx : value) :
  (forall event args, P (Emit event args)) ->
  grows P (generic_emissions type message ctx).
Proof.
  intros HP. unfold generic_emissions. repeat grows_step; auto using grows_emit.
Qed.

(** ** Claiming by a reply listener *)

Section Claiming.

Context (E : environment).

Lemma calm_only_errors (new : list effect) : Forall calm new -> Forall only_errors new.
Proof. intros H. eapply Forall_impl; [exact H|]. by intros e [? ?]. Qed.

Lemma calm_no_reply (new : list effect) : Forall calm new -> Forall no_reply new.
Proof. intros H. eapply Forall_impl; [exact H|]. by intros e [? ?]. Qed.

Lemma record_inv (e : effect) (w : machine) (r : completion unit) (w' : machine) :
  record e w = (r, w') -> r = Normal tt /\ self w' = self w /\ log w' = (log w ++ [e])%list.
Proof. by intros [= <- <-]. Qed.

Lemma reply_loop_true (n k : nat) (message : value) (w : machine) (b : bool) (w' : machine) :
  reply_loop E n k message true w = (Normal b, w') -> b = true.
Proof.
  revert k w. induction n as [|n IH]; intros k w; cbn [reply_loop].
  - by intros [= <- <-].
  - unfold bind at 1, this at 1.
    destruct (_replyListeners (self w) !! k) as [reply|]; [|apply IH].
    destruct (strict_eq _ _); [|apply IH].
    intros H.
    destruct (bind_inv _ _ _ _ _ H) as [(a & w1 & _ & H2)|(e & _ & [=])].
    destruct (bind_inv _ _ _ _ _ H2) as [(a' & w2 & _ & H3)|(e & _ & [=])].
    eapply IH, H3.
Qed.

Lemma reply_loop_log (n k : nat) (message : value) (h : bool) (w : machine)
      (r : completion bool) (w' : machine) :
  reply_loop E n k message h w = (r, w') ->
  exists new, log w' = (log w ++ new)%list
              /\ Forall only_errors new
              /\ (r = Normal false -> Forall no_reply new).
Proof.
  revert k h w. induction n as [|n IH]; intros k h w; cbn [reply_loop].
  - intros [= <- <-]. exists []. rewrite app_nil_r. repeat split; constructor.
  - unfold bind at 1, this at 1.
    destruct (_replyListeners (self w) !! k) as [reply|]; [|apply IH].
    destruct (strict_eq _ _); [|apply IH].
    intros H.
    destruct (bind_inv _ _ _ _ _ H) as [(a & w1 & H1 & H2)|(e & H1 & _)];
      [|by apply record_inv in H1 as [? _]].
    apply record_inv in H1 as (_ & _ & L1).
    destruct (bind_inv _ _ _ _ _ H2) as [(a' & w2 & Hc & H3)|(e & Hc & ->)].
    + destruct (grows_reply_call E only_errors (fun _ => eq_refl) (fun _ _ => I)
                  _ _ _ _ _ Hc) as (n1 & L2 & F1).
      destruct (IH _ _ _ H3) as (n2 & L3 & F2 & _).
      exists ([FireReply reply message] ++ n1 ++ n2)%list. split; [|split].
      * rewrite L3, L2, L1. by rewrite <- !app_assoc.
      * apply Forall_app. split; [by repeat constructor|]. by apply Forall_app.
      * intros ->. by apply reply_loop_true in H3.
    + destruct (grows_reply_call E only_errors (fun _ => eq_refl) (fun _ _ => I)
                  _ _ _ _ _ Hc) as (n1 & L2 & F1).
      exists ([FireReply reply message] ++ n1)%list. split; [|split].
      * rewrite L2, L1. by rewrite <- !app_assoc.
      * apply Forall_app. split; [by repeat constructor|done].
      * done.
Qed.

Lemma bind_grows_inv {A B} (P : effect -> Prop) (m : M A) (k : A -> M B)
      (w : machine) (r : completion B) (w' : machine) :
  grows P m -> bind m k w = (r, w') ->
  (exists a w1 n1, log w1 = (log w ++ n1)%list /\ Forall P n1 /\ k a w1 = (r, w'))
  \/ (exists e n1, r = Throw e /\ log w' = (log w ++ n1)%list /\ Forall P n1).
Proof.
  intros G H.
  destruct (bind_inv _ _ _ _ _ H) as [(a & w1 & H1 & H2)|(e & H1 & ->)].
  - destruct (G _ _ _ H1) as (n1 & L & F). left. by exists a, w1, n1.
  - destruct (G _ _ _ H1) as (n1 & L & F). right. by exists e, n1.
Qed.

Lemma calm_error (args : list value) : calm (Emit "error" args).
Proof. by split. Qed.

Lemma calm_call (name : string) (args : list value) : calm (Call name args).
Proof. by split. Qed.

Lemma calm_trigger (entry : text_listener) (m c : value) : calm (FireText entry m c).
Proof. by split. Qed.

Lemma triggers_and_replies_log (message convId ctx : value) (w : machine)
      (r : completion (value * bool)) (w' : machine) :
  triggers_and_replies E message convId ctx w = (r, w') ->
  exists new, log w' = (log w ++ new)%list
              /\ Forall only_errors new
              /\ (forall c, r = Normal (c, false) -> Forall no_reply new).
Proof.
  unfold triggers_and_replies, replies. intros H.
  destruct (bind_grows_inv calm _ _ _ _ _ (grows_this _) H)
    as [(b & w1 & n1 & L1 & F1 & H1)|(e & n1 & -> & L1 & F1)]; clear H;
    [|exists n1; split; [done|]; split; [by apply calm_only_errors|done]].
  destruct (bind_grows_inv calm _ _ _ _ _
              (grows_text_loop E calm calm_error calm_call _ _ _ _ calm_trigger) H1)
    as [(c1 & w2 & n2 & L2 & F2 & H2)|(e & n2 & -> & L2 & F2)]; clear H1.
  2:{ exists (n1 ++ n2)%list. split; [rewrite L2, L1; by rewrite <- ?app_assoc|].
      split; [|done]. apply calm_only_errors. by apply Forall_app. }
  destruct (bind_grows_inv calm _ _ _ _ _ (grows_this _) H2)
    as [(b2 & w3 & n3 & L3 & F3 & H3)|(e & n3 & -> & L3 & F3)]; clear H2.
  2:{ exists (n1 ++ n2 ++ n3)%list. split; [rewrite L3, L2, L1; by rewrite <- ?app_assoc|].
      split; [|done]. apply calm_only_errors.
      by repeat (apply Forall_app; split). }
  destruct (bind_grows_inv calm _ _ _ _ _ (grows_lift _ _) H3)
    as [(me & w4 & n4 & L4 & F4 & H4)|(e & n4 & -> & L4 & F4)]; clear H3.
  2:{ exists (n1 ++ n2 ++ n3 ++ n4)%list. split; [rewrite L4, L3, L2, L1; by rewrite <- ?app_assoc|]. split; [|done]. apply calm_only_errors.
      by repeat (apply Forall_app; split). }
  assert (G : grows calm (match own c1 "get" with
                          | VFun _ => ctx_get convId ("_asked" ++ to_string me)
                          | _ => lift (Throw (not_a_function "ctx.get"))
                          end)).
  { destruct (own c1 "get"); auto using grows_lift, grows_ctx_get. }
  destruct (bind_grows_inv calm _ _ _ _ _ G H4)
    as [(qa & w5 & n5 & L5 & F5 & H5)|(e & n5 & -> & L5 & F5)]; clear H4 G.
  2:{ exists (n1 ++ n2 ++ n3 ++ n4 ++ n5)%list. split; [rewrite L5, L4, L3, L2, L1; by rewrite <- ?app_assoc|]. split; [|done]. apply calm_only_errors.
      by repeat (apply Forall_app; split). }
  assert (F : Forall calm (n1 ++ n2 ++ n3 ++ n4 ++ n5)%list)
    by (by repeat (apply Forall_app; split)).
  assert (L : log w5 = (log w ++ n1 ++ n2 ++ n3 ++ n4 ++ n5)%list)
    by (by rewrite L5, L4, L3, L2, L1, <- !app_assoc).
  clear L1 L2 L3 L4 L5 F1 F2 F3 F4 F5.
  destruct (truthy qa).
  - unfold bind at 1, this at 1 in H5.
    destruct (bind_inv _ _ _ _ _ H5) as [(h & w6 & Hl & Hr)|(e & Hl & ->)].
    + destruct (reply_loop_log _ _ _ _ _ _ _ Hl) as (n6 & L6 & F6 & N6).
      injection Hr as <- <-.
      exists ((n1 ++ n2 ++ n3 ++ n4 ++ n5) ++ n6)%list. split; [rewrite L6, L; by rewrite <- ?app_assoc|]. split.
      * apply Forall_app. split; [by apply calm_only_errors|done].
      * intros c [= _ ->]. apply Forall_app. split; [by apply calm_no_reply|by apply N6].
    + destruct (reply_loop_log _ _ _ _ _ _ _ Hl) as (n6 & L6 & F6 & N6).
      exists ((n1 ++ n2 ++ n3 ++ n4 ++ n5) ++ n6)%list. split; [rewrite L6, L; by rewrite <- ?app_assoc|]. split; [|done].
      apply Forall_app. auto using calm_only_errors.
  - injection H5 as <- <-. exists (n1 ++ n2 ++ n3 ++ n4 ++ n5)%list.
    split; [done|]. split; [by apply calm_only_errors|].
    intros _ _. by apply calm_no_reply.
Qed.

Lemma handleMessage_log (type : string) (message : value) (w : machine)
      (r : completion unit) (w' : machine) :
  _handleMessage E type message w = (r, w') ->
  exists new, log w' = (log w ++ new)%list
              /\ (Forall only_errors new \/ Forall no_reply new).
Proof.
  unfold _handleMessage. intros H.
  destruct (bind_grows_inv calm _ _ _ _ _ (grows_lift _ _) H)
    as [(convId & w1 & n1 & L1 & F1 & H1)|(e & n1 & -> & L1 & F1)]; clear H;
    [|exists n1; split; [done|]; left; by apply calm_only_errors].
  destruct (bind_grows_inv calm _ _ _ _ _
              (grows_getActionsObject calm calm_error _) H1)
    as [(ctx & w2 & n2 & L2 & F2 & H2)|(e & n2 & -> & L2 & F2)]; clear H1.
  { assert (F : Forall calm (n1 ++ n2)%list) by (by apply Forall_app).
    assert (L : log w2 = (log w ++ n1 ++ n2)%list) by (by rewrite L2, L1, <- app_assoc).
    clear L1 L2 F1 F2.
    destruct (bind_inv _ _ _ _ _ H2) as [([c h] & w3 & Hp & Hg)|(e & Hp & ->)]; clear H2.
    - assert (P3 : exists n3, log w3 = (log w2 ++ n3)%list /\ Forall only_errors n3
                               /\ (h = false -> Forall no_reply n3)).
      { destruct (qualifies type message).
        - destruct (triggers_and_replies_log _ _ _ _ _ _ Hp) as (n3 & L3 & F3 & N3).
          exists n3. repeat split; auto. intros ->. by apply (N3 c).
        - injection Hp as <- <- <-. exists []. rewrite app_nil_r.
          repeat split; constructor. }
      destruct P3 as (n3 & L3 & F3 & N3). cbn [fst snd] in Hg. destruct h.
      + injection Hg as <- <-. exists ((n1 ++ n2) ++ n3)%list.
        split; [rewrite L3, L; by rewrite <- ?app_assoc|]. left.
        apply Forall_app. split; [by apply calm_only_errors|done].
      + destruct (grows_generic_emissions no_reply type message c (fun _ _ => I)
                    _ _ _ Hg) as (n4 & L4 & F4).
        exists (((n1 ++ n2) ++ n3) ++ n4)%list.
        split; [rewrite L4, L3, L; by rewrite <- ?app_assoc|]. right.
        apply Forall_app. split; [|done].
        apply Forall_app. split; [by apply calm_no_reply|by apply N3].
    - assert (P3 : exists n3, log w' = (log w2 ++ n3)%list /\ Forall only_errors n3).
      { destruct (qualifies type message).
        - destruct (triggers_and_replies_log _ _ _ _ _ _ Hp) as (n3 & L3 & F3 & _). eauto.
        - discriminate Hp. }
      destruct P3 as (n3 & L3 & F3). exists ((n1 ++ n2) ++ n3)%list.
      split; [rewrite L3, L; by rewrite <- ?app_assoc|]. left.
      apply Forall_app. split; [by apply calm_only_errors|done]. }
  exists (n1 ++ n2)%list. split; [rewrite L2, L1; by rewrite <- ?app_assoc|]. left.
  apply calm_only_errors. by apply Forall_app.
Qed.

End Claiming.

(** C1 (as the code has it).  Whenever [_handleMessage] calls the callback
    of a reply listener for a message, it emits nothing for that message
    but error signals: no [message], no typed event, no [notify] and no
    typed-and-role event. *)
Theorem reply_suppresses_generic_emission
        (E : environment) (type : string) (message : value) (w : machine)
        (reply : reply_listener) (m : value) :
  In (FireReply reply m) (added w (snd (_handleMessage E type message w))) ->
  forall event args,
    event <> "error" ->
    ~ In (Emit event args) (added w (snd (_handleMessage E type message w))).
Proof.
  destruct (_handleMessage E type message w) as [r w'] eqn:H. cbn [snd].
  destruct (handleMessage_log E _ _ _ _ _ H) as (new & L & [F|F]);
    rewrite (added_app _ _ _ L); intros Hin event args Hne Hem.
  - rewrite List.Forall_forall in F. by apply F in Hem.
  - rewrite List.Forall_forall in F. by apply F in Hin.
Qed.

Lemma reply_suppresses_generic_emission_witness :
  In (FireReply first_listener hello_message)
     (added (Machine waiting_bot [])
            (snd (_handleMessage quiet hello_type hello_message (Machine waiting_bot []))))
  /\ ~ In (Emit "message" [hello_message; asked_ctx])
          (added (Machine waiting_bot [])
                 (snd (_handleMessage quiet hello_type hello_message
                                      (Machine waiting_bot [])))).
Proof.
  split.
  - vm_compute. left. reflexivity.
  - apply (reply_suppresses_generic_emission quiet hello_type hello_message
             (Machine waiting_bot []) first_listener hello_message).
    + vm_compute. left. reflexivity.
    + discriminate.
Defined.

(** The whole of what that run adds to the log: the two listeners are
    called, nothing is emitted. *)
Example answered_message_log :
  added (Machine waiting_bot [])
        (snd (_handleMessage quiet hello_type hello_message (Machine waiting_bot [])))
  = [FireReply first_listener hello_message; Call "resume" [hello_message];
     FireReply second_listener hello_message; Call "also" [hello_message]].
Proof. vm_compute. reflexivity. Qed.

(** Without a listener for the conversation the same message is emitted
    with the context the witness names. *)
Example unanswered_message_log :
  added (Machine marked_bot [])
        (snd (_handleMessage quiet hello_type hello_message (Machine marked_bot [])))
  = [Emit "message" [hello_message; asked_ctx];
     Emit "message.create.contact.chat" [hello_message; asked_ctx];
     Emit "message.create.contact.chat.contact" [hello_message; asked_ctx]].
Proof. vm_compute. reflexivity. Qed.

(** C1, as stated, fails for text triggers: the trigger ["hi"] fires for
    the message of the scenario, and the generic [message] event, the typed
    event and the typed-and-role event are emitted all the same, with the
    context marked as captured. *)
Lemma text_trigger_does_not_suppress_generic_emission :
  added (Machine greeter_bot [])
        (snd (_handleMessage quiet hello_type hello_message (Machine greeter_bot [])))
  = [FireText greeting hello_message captured_ctx;
     Call "greet" [hello_message; captured_ctx];
     Emit "message" [hello_message; captured_ctx];
     Emit "message.create.contact.chat" [hello_message; captured_ctx];
     Emit "message.create.contact.chat.contact" [hello_message; captured_ctx]].
Proof. vm_compute. reflexivity. Qed.

(** ** Text triggers *)

Lemma fired_triggers_app (l1 l2 : list effect) :
  fired_triggers (l1 ++ l2) = (fired_triggers l1 ++ fired_triggers l2)%list.
Proof. apply omap_app. Qed.

Lemma fired_triggers_none (l : list effect) : Forall no_trigger l -> fired_triggers l = [].
Proof.
  induction 1 as [|e l He _ IH]; [done|].
  unfold fired_triggers in *. cbn [omap]. destruct e; cbn in *; try done.
Qed.

Lemma bind_assoc {A B C} (m : M A) (k : A -> M B) (h : B -> M C) (w : machine) :
  bind (bind m k) h w = bind m (fun a => bind (k a) h) w.
Proof. unfold bind. by destruct (m w) as [[a|e] w1]. Qed.

Lemma getActionsObject_total (convId : value) (w : machine) :
  exists props new,
    _getActionsObject convId w = (Normal (VObj props), Machine (self w) (log w ++ new)%list)
    /\ Forall is_error_signal new.
Proof.
  unfold _getActionsObject, bind, this. cbn [self].
  destruct (negb (truthy convId) || negb (truthy (cache_get _ convId))).
  - eexists _, [_]. split; [reflexivity|]. by repeat constructor.
  - eexists _, []. rewrite app_nil_r. split; [by destruct w|constructor].
Qed.

Lemma error_signal_no_trigger (new : list effect) :
  Forall is_error_signal new -> Forall no_trigger new.
Proof. intros H. eapply Forall_impl; [exact H|]. by intros []. Qed.

Lemma qualifies_not_nullish (type : string) (message : value) :
  qualifies type message = true -> nullish message = false.
Proof.
  unfold qualifies. destruct message; try done; cbn; by rewrite ?andb_false_r.
Qed.

Section TriggerOrder.

Context (E : environment) (type : string) (message : value).
Context (A B : text_listener).

Hypothesis message_qualifies : qualifies type message = true.
Hypothesis A_hits : trigger_hits (tl_regexp A) (own message "text") = Normal true.
Hypothesis B_hits : trigger_hits (tl_regexp B) (own message "text") = Normal true.
Hypothesis A_benign : benign E (tl_callback A) message.
Hypothesis B_benign : benign E (tl_callback B) message.

Lemma text_loop_pair (props : list (string * value)) (w : machine) :
  _textRegexpCallbacks (self w) = [A; B] ->
  exists ctx' w' new,
    text_loop E 2 0 message (VObj props) w = (Normal ctx', w')
    /\ log w' = (log w ++ new)%list
    /\ fired_triggers new = (if onlyFirstMatch (self w) then [A] else [A; B]).
Proof.
  intros HT. cbn [text_loop]. unfold bind at 1, this at 1. rewrite HT. cbn [lookup list_lookup].
  unfold bind at 1, lift at 1. rewrite A_hits. cbn [negb].
  unfold bind at 1, record at 1. cbn [set_prop].
  destruct (A_benign (set_assoc "captured" (VBool true) props)
              (Machine (self w) (log w ++ [FireText A message
                 (VObj (set_assoc "captured" (VBool true) props))])))
    as (w1 & HA & T1 & O1).
  unfold bind at 1. rewrite HA. unfold bind at 1, this at 1.
  destruct (grows_apply E no_trigger (fun _ => I) (fun _ _ => I) _ _ _ _ _ HA)
    as (nA & LA & FA). cbn [log self] in LA, T1, O1.
  rewrite O1. destruct (onlyFirstMatch (self w)).
  - eexists _, _, _. split; [reflexivity|]. split.
    + rewrite LA, <- app_assoc. reflexivity.
    + rewrite fired_triggers_app, (fired_triggers_none nA) by done. reflexivity.
  - unfold bind at 1, this at 1. rewrite T1, HT. cbn [lookup list_lookup].
    unfold bind at 1, lift at 1. rewrite B_hits. cbn [negb].
    unfold bind at 1, record at 1.
    destruct (B_benign (set_assoc "captured" (VBool true)
                          (set_assoc "captured" (VBool true) props))
                (Machine (self w1) (log w1 ++ [FireText B message
                   (VObj (set_assoc "captured" (VBool true)
                            (set_assoc "captured" (VBool true) props)))])))
      as (w2 & HB & T2 & O2).
    unfold bind at 1. cbn [set_prop self log]. rewrite HB. unfold bind at 1, this at 1.
    destruct (grows_apply E no_trigger (fun _ => I) (fun _ _ => I) _ _ _ _ _ HB)
      as (nB & LB & FB). cbn [log self] in LB, T2, O2.
    rewrite O2, O1.
    eexists _, _, _. split; [reflexivity|]. split.
    + rewrite LB, LA, <- !app_assoc. reflexivity.
    + rewrite !fired_triggers_app, (fired_triggers_none nA), (fired_triggers_none nB) by done.
      reflexivity.
Qed.

Lemma grows_after_triggers (ctx convId : value) :
  grows no_trigger
        (bind (replies E message convId ctx)
              (fun r => if snd r then ret tt
                        else generic_emissions type message (fst r))).
Proof.
  unfold replies. cbv zeta.
  repeat grows_step;
    first [ apply grows_ctx_get
          | apply grows_reply_loop; intros; exact I
          | apply grows_generic_emissions; intros; exact I ].
Qed.

Lemma handleMessage_pair (w : machine) :
  _textRegexpCallbacks (self w) = [A; B] ->
  fired_triggers (added w (snd (_handleMessage E type message w)))
  = (if onlyFirstMatch (self w) then [A] else [A; B]).
Proof.
  intros HT. unfold _handleMessage. unfold bind at 1, lift at 1.
  rewrite get_own by (by eapply qualifies_not_nullish).
  destruct (getActionsObject_total (own message "conversation") w)
    as (props & n0 & H0 & F0).
  unfold bind at 1. rewrite H0, message_qualifies.
  unfold triggers_and_replies, replies. rewrite bind_assoc.
  unfold bind at 1, this at 1. cbn [self]. rewrite bind_assoc, HT. cbn [List.length].
  destruct (text_loop_pair props (Machine (self w) (log w ++ n0)) HT)
    as (ctx' & w2 & nt & Ht & Lt & Ft).
  unfold bind at 1. rewrite Ht.
  match goal with
  | |- context [snd (?rest w2)] => destruct (rest w2) as [r w'] eqn:Hr
  end.
  destruct (grows_after_triggers ctx' _ _ _ _ Hr) as (nr & Lr & Fr).
  cbn [snd log self] in *.
  rewrite (added_app w w' ((n0 ++ nt) ++ nr))
    by (rewrite Lr, Lt; by rewrite <- !app_assoc).
  rewrite !fired_triggers_app, Ft.
  rewrite (fired_triggers_none n0) by (by apply error_signal_no_trigger).
  rewrite (fired_triggers_none nr) by done.
  by rewrite app_nil_r.
Qed.

End TriggerOrder.

Lemma trigger_hits_single (regexp text : value) :
  trigger_hits regexp text = Normal true ->
  match regexp with VArr _ => False | _ => True end.
Proof.
  destruct regexp; try done. cbn. by destruct (toUpperCase text).
Qed.


Lemma quiet_benign (name : string) (message : value) : benign quiet (Fn name) message.
Proof. intros props w. eexists. repeat split. Qed.


(** ** Reply listeners *)

Lemma assoc_set_assoc (k k' : string) (v : value) (o : list (string * value)) :
  assoc k (set_assoc k' v o) = if String.eqb k k' then v else assoc k o.
Proof.
  induction o as [|[k0 v0] o IH]; cbn [set_assoc assoc].
  - done.
  - destruct (String.eqb k' k0) eqn:E1; cbn [assoc].
    + apply String.eqb_eq in E1 as ->. by destruct (String.eqb k k0).
    + destruct (String.eqb k k0) eqn:E2.
      * apply String.eqb_eq in E2 as ->.
        by rewrite String.eqb_sym, E1.
      * exact IH.
Qed.

Lemma assoc_assign_get (t : list (string * value)) (o : value) :
  assoc "get" (assign t (("organization", o) :: actions)) = VFun "get".
Proof.
  unfold assign, actions. cbn [fold_left fst snd]. by rewrite !assoc_set_assoc.
Qed.

Lemma assoc_assign_organization (t : list (string * value)) (o : value) :
  assoc "organization" (assign t (("organization", o) :: actions)) = o.
Proof.
  unfold assign, actions. cbn [fold_left fst snd]. by rewrite !assoc_set_assoc.
Qed.

Lemma own_falsy (o : value) (k : string) : truthy o = false -> truthy (own o k) = false.
Proof.
  destruct o as [| |b|n|s| | | | |]; try done; cbn [truthy own].
  - intros E1. apply negb_false_iff, String.eqb_eq in E1 as ->.
    cbn. by destruct (String.eqb k "length").
Qed.

Lemma getActionsObject_known (convId : value) (w : machine) :
  truthy convId = true ->
  truthy (cache_get (_conversations (self w)) convId) = true ->
  exists props,
    _getActionsObject convId w = (Normal (VObj props), w)
    /\ assoc "get" props = VFun "get".
Proof.
  intros H1 H2. unfold _getActionsObject, bind, this. rewrite H1, H2. cbn [negb orb].
  eexists. split; [reflexivity|]. apply assoc_assign_get.
Qed.

Lemma stable_bind {A B} (m : M A) (k : A -> M B) :
  stable m -> (forall a, stable (k a)) -> stable (bind m k).
Proof.
  intros Hm Hk w r w' H.
  destruct (bind_inv _ _ _ _ _ H) as [(a & w1 & H1 & H2)|(e & H1 & ->)].
  - rewrite (Hk _ _ _ _ H2). eauto.
  - eauto.
Qed.

Lemma stable_ret {A} (a : A) : stable (ret a).
Proof. by intros w r w' [= <- <-]. Qed.

Lemma stable_lift {A} (c : completion A) : stable (lift c).
Proof. by intros w r w' [= <- <-]. Qed.

Lemma stable_this : stable this.
Proof. by intros w r w' [= <- <-]. Qed.

Lemma stable_record (e : effect) : stable (record e).
Proof. by intros w r w' [= <- <-]. Qed.

Lemma stable_conversations (f : gmap string value -> gmap string value) :
  stable (modify (with_conversations f)).
Proof. by intros w r w' [= <- <-]. Qed.

Ltac stable_step :=
  match goal with
  | |- stable (bind _ _) => apply stable_bind; [|intros ?]
  | |- stable (ret _) => apply stable_ret
  | |- stable (lift _) => apply stable_lift
  | |- stable this => apply stable_this
  | |- stable (record _) => apply stable_record
  | |- stable (modify (with_conversations _)) => apply stable_conversations
  | |- stable (if ?c then _ else _) => destruct c
  end.

Lemma stable_emit (event : string) (args : list value) : stable (emit event args).
Proof. unfold emit, conversation_update. repeat stable_step. Qed.

Lemma stable_generic_emissions (type : string) (message ctx : value) :
  stable (generic_emissions type message ctx).
Proof.
  unfold generic_emissions. repeat stable_step; apply stable_emit.
Qed.

Lemma fired_replies_app (l1 l2 : list effect) :
  fired_replies (l1 ++ l2) = (fired_replies l1 ++ fired_replies l2)%list.
Proof. apply omap_app. Qed.

Lemma fired_replies_none (l : list effect) : Forall no_reply l -> fired_replies l = [].
Proof.
  induction 1 as [|e l He _ IH]; [done|].
  unfold fired_replies in *. cbn [omap]. destruct e; cbn in *; try done.
Qed.

Section ReplyWalk.

Context (E : environment) (message : value).

Lemma reply_walk (ls : list reply_listener) (n : nat) :
  (forall reply, In reply ls -> same_conversation message reply = true ->
                 steady E reply message) ->
  forall k h w,
    _replyListeners (self w) = ls ->
    (n + k)%nat = List.length ls ->
    exists w' new,
      reply_loop E n k message h w
      = (Normal (h || existsb (same_conversation message) (drop k ls)), w')
      /\ log w' = (log w ++ new)%list
      /\ fired_replies new
         = map (fun reply => (reply, message))
               (List.filter (same_conversation message) (drop k ls))
      /\ _replyListeners (self w') = ls.
Proof.
  intros Hs. induction n as [|n IH]; intros k h w HL Hlen; cbn [reply_loop].
  - rewrite drop_ge by (cbn in Hlen; lia). cbn. rewrite orb_false_r.
    exists w, []. by rewrite app_nil_r.
  - unfold bind at 1, this at 1. rewrite HL.
    destruct (ls !! k) as [reply|] eqn:Hk.
    2:{ apply lookup_ge_None in Hk. lia. }
    rewrite (drop_S _ _ _ Hk). cbn [existsb List.filter map].
    fold (same_conversation message reply).
    destruct (same_conversation message reply) eqn:Hsame.
    + unfold bind at 1, record at 1.
      assert (Hin : In reply ls).
      { apply list_elem_of_In, list_elem_of_lookup. eauto. }
      destruct (Hs reply Hin Hsame
                   (Machine (self w) (log w ++ [FireReply reply message])))
        as (w1 & Hc & L1).
      unfold bind at 1. rewrite Hc.
      destruct (grows_reply_call E no_reply (fun _ => I) (fun _ _ => I) _ _ _ _ _ Hc)
        as (nc & Lc & Fc).
      cbn [self log] in L1, Lc.
      destruct (IH (S k) true w1) as (w' & new & Hr & Ln & Fn & Hl).
      { by rewrite L1. } { lia. }
      exists w', ([FireReply reply message] ++ nc ++ new)%list.
      rewrite Hr. cbn [orb]. rewrite orb_true_r. split; [done|]. split.
      * rewrite Ln, Lc. by rewrite <- !app_assoc.
      * split; [|done].
        rewrite !fired_replies_app, (fired_replies_none nc), Fn by done. reflexivity.
    + destruct (IH (S k) h w) as (w' & new & Hr & Ln & Fn & Hl); [done|lia|].
      exists w', new. by rewrite Hr.
Qed.

(** The text triggers, when each of them is inert, leave the bot alone. *)
Lemma text_loop_inert (n : nat) :
  forall k props w,
    Forall (fun entry => inert E entry message) (_textRegexpCallbacks (self w)) ->
    exists props' w' new,
      text_loop E n k message (VObj props) w = (Normal (VObj props'), w')
      /\ self w' = self w
      /\ log w' = (log w ++ new)%list
      /\ Forall no_reply new
      /\ assoc "get" props' = assoc "get" props.
Proof.
  induction n as [|n IH]; intros k props w HF; cbn [text_loop].
  - exists props, w, []. rewrite app_nil_r. repeat split; try done; constructor.
  - unfold bind at 1, this at 1.
    destruct (_textRegexpCallbacks (self w) !! k) as [entry|] eqn:Hk; [|by apply IH].
    assert (Hi : inert E entry message).
    { rewrite List.Forall_forall in HF. apply HF.
      apply list_elem_of_In, list_elem_of_lookup. eauto. }
    destruct Hi as [Hmiss|[Hhit Hcb]].
    + unfold bind at 1, lift at 1. rewrite Hmiss. cbn [negb]. by apply IH.
    + unfold bind at 1, lift at 1. rewrite Hhit. cbn [negb set_prop].
      unfold bind at 1, record at 1.
      destruct (Hcb (set_assoc "captured" (VBool true) props)
                  (Machine (self w) (log w ++ [FireText entry message
                     (VObj (set_assoc "captured" (VBool true) props))])))
        as (w1 & Hc & S1).
      unfold bind at 1. rewrite Hc. unfold bind at 1, this at 1.
      destruct (grows_apply E no_reply (fun _ => I) (fun _ _ => I) _ _ _ _ _ Hc)
        as (nc & Lc & Fc).
      cbn [self log] in S1, Lc.
      destruct (onlyFirstMatch (self w1)).
      * eexists _, w1, ([_] ++ nc)%list. split; [reflexivity|]. split; [done|].
        split; [by rewrite Lc, <- app_assoc|]. split.
        -- apply Forall_app. split; [by repeat constructor|done].
        -- by rewrite assoc_set_assoc.
      * destruct (IH (S k) (set_assoc "captured" (VBool true) props) w1)
          as (props' & w' & new & Hr & S2 & Ln & Fn & G).
        { by rewrite S1. }
        exists props', w', ([FireText entry message
                     (VObj (set_assoc "captured" (VBool true) props))] ++ nc ++ new)%list.
        split; [done|]. split; [by rewrite S2|].
        split; [rewrite Ln, Lc; by rewrite <- !app_assoc|]. split.
        -- apply Forall_app. split; [by repeat constructor|]. by apply Forall_app.
        -- by rewrite G, assoc_set_assoc.
Qed.

End ReplyWalk.

Lemma ctx_get_marker (convId : value) (w : machine) :
  awaiting_answer (self w) convId = true ->
  exists questionAsked,
    ctx_get convId ("_asked" ++ to_string (own (auth (self w)) "user")) w
    = (Normal questionAsked, w)
    /\ truthy questionAsked = true.
Proof.
  unfold awaiting_answer. intros H. unfold ctx_get, bind, this.
  destruct (truthy (cache_get (_conversations (self w)) convId)) eqn:H1.
  2:{ by rewrite (own_falsy _ _ (own_falsy _ "meta" H1)) in H. }
  destruct (truthy (own (cache_get (_conversations (self w)) convId) "meta")) eqn:H2.
  2:{ by rewrite (own_falsy _ _ H2) in H. }
  cbn [at_key append]. eexists. split; [reflexivity|done].
Qed.


Lemma quiet_steady (reply : reply_listener) (message : value) (name : string) :
  rl_callback reply = Fn name -> steady quiet reply message.
Proof.
  intros H w. unfold reply_call. rewrite H. eexists. split; reflexivity.
Qed.



(** A listener leaves the list through [removeReplyListener] only, and the
    closure that [ask] registers calls it for its own listener before it
    resumes the caller. *)
Lemma ask_listener_removes_itself
      (E : environment) (id : Z) (convId : value) (name : string) (m : value) (w : machine) :
  nullish m = false ->
  (forall f args b, _replyListeners (snd (handler E f args b)) = _replyListeners b) ->
  _replyListeners (self (snd (apply E (Resume id convId (Fn name)) [m] w)))
  = without id (_replyListeners (self w)).
Proof.
  intros Hm Hh. cbn [apply hd]. unfold bind at 1, lift at 1. rewrite get_own by done.
  unfold bind at 1, removeReplyListener at 1, bind at 1, this at 1. unfold without.
  destruct (list_find _ (_replyListeners (self w))) as [[index r]|].
  - unfold bind at 1, modify at 1, ret at 1.
    destruct (getActionsObject_total convId
                (Machine (with_replyListeners (delete index) (self w)) (log w)))
      as (props & new & Hc & _).
    unfold bind at 1. rewrite Hc. unfold call, bind, record, foreign. cbn [self log].
    destruct (handler E name _ _) as [r0 b0] eqn:Hr. cbn [snd self].
    pose proof (Hh name [m; VObj props] (with_replyListeners (delete index) (self w))) as Hk.
    rewrite Hr in Hk. by destruct r0.
  - unfold ret at 1.
    destruct (getActionsObject_total convId w) as (props & new & Hc & _).
    unfold bind at 1. rewrite Hc. unfold call, bind, record, foreign. cbn [self log].
    destruct (handler E name _ _) as [r0 b0] eqn:Hr. cbn [snd self].
    pose proof (Hh name [m; VObj props] (self w)) as Hk.
    rewrite Hr in Hk. by destruct r0.
Qed.

(** Two questions asked in the same conversation: the answer reaches the
    first listener, which removes itself while the list is being walked;
    the walk then resumes one index further and passes over the second
    listener, which stays registered. *)
Example asked_twice_answered_once :
  fired_replies (added asked_twice
                       (snd (_handleMessage quiet hello_type hello_message asked_twice)))
  = [(ReplyListener 1 (VStr "c1") (VStr "m7") (Resume 1 (VStr "c1") (Fn "resume")),
      hello_message)]
  /\ _replyListeners (self (snd (_handleMessage quiet hello_type hello_message asked_twice)))
     = [ReplyListener 2 (VStr "c1") (VStr "m8") (Resume 2 (VStr "c1") (Fn "again"))].
Proof. split; vm_compute; reflexivity. Qed.

(** ** The Actions Context *)

(** C9 (what the code does).  The cache of organizations is indexed with
    the cached conversation object itself, whose key is the text
    "[object Object]", and never with the conversation's organization: for
    a conversation held as an object, the [organization] field of the
    Actions Context is the conversation's own embedded reference, whatever
    the cache holds for that organization. *)
Theorem actions_organization_is_embedded_reference
        (convId : value) (props : list (string * value)) (w : machine) :
  truthy convId = true ->
  cache_get (_conversations (self w)) convId = VObj props ->
  _organizations (self w) !! "[object Object]" = None ->
  exists ctx,
    _getActionsObject convId w = (Normal ctx, w)
    /\ own ctx "organization" = assoc "organization" props.
Proof.
  intros Hc Hconv Horg. unfold _getActionsObject, bind, this.
  rewrite Hc, Hconv. cbn [truthy negb orb]. unfold cache_get at 1. cbn [to_string].
  rewrite Horg. cbn [default truthy]. eexists. split; [reflexivity|].
  cbn [own]. by rewrite assoc_assign_organization.
Qed.

Lemma actions_organization_is_embedded_reference_witness :
  cache_get (_organizations preloaded_bot) (own hello_conversation "organization") = acme
  /\ exists ctx,
       _getActionsObject (VStr "c1") (Machine preloaded_bot [])
       = (Normal ctx, Machine preloaded_bot [])
       /\ own ctx "organization" = VStr "o1".
Proof.
  split; [reflexivity|].
  exact (actions_organization_is_embedded_reference (VStr "c1")
           [("id", VStr "c1"); ("organization", VStr "o1")]
           (Machine preloaded_bot []) eq_refl eq_refl eq_refl).
Defined.

(** The part of C8 that holds: for an id that is falsy or not in the cache,
    the builder emits one error signal and returns the empty object. *)
Lemma getActionsObject_unknown (convId : value) (w : machine) :
  truthy convId = false \/ truthy (cache_get (_conversations (self w)) convId) = false ->
  _getActionsObject convId w
  = (Normal (VObj []), Machine (self w) (log w ++ [missing_conv_error convId])).
Proof.
  intros H. unfold _getActionsObject, bind, this.
  assert (Hc : negb (truthy convId)
               || negb (truthy (cache_get (_conversations (self w)) convId)) = true).
  { destruct H as [-> | ->]; [done|]. by rewrite orb_true_r. }
  by rewrite Hc.
Qed.

Lemma get_type_error (o : value) (k : string) (e : value) :
  get o k = Throw e -> is_type_error e = true.
Proof. destruct o; try done; by intros [= <-]. Qed.

(** C8 (what the code does).  When the conversation of a qualifying
    message is not in the cache, the empty context has no [get], and the
    call [ctx.get(...)] that follows the text triggers throws a type
    error: [_handleMessage] is left by that exception, and nothing but
    error signals has been emitted for the message. *)
Theorem unknown_conversation_aborts_dispatch
        (E : environment) (type : string) (message : value) (w : machine) :
  qualifies type message = true ->
  truthy (own message "conversation") = false
  \/ truthy (cache_get (_conversations (self w)) (own message "conversation")) = false ->
  Forall (fun entry => inert E entry message) (_textRegexpCallbacks (self w)) ->
  exists e,
    fst (_handleMessage E type message w) = Throw e
    /\ is_type_error e = true
    /\ forall event args,
         In (Emit event args) (added w (snd (_handleMessage E type message w))) ->
         event = "error".
Proof.
  intros Hq Hunknown Hinert.
  destruct (_handleMessage E type message w) as [r w'] eqn:H. cbn [fst snd].
  revert H. unfold _handleMessage. unfold bind at 1, lift at 1.
  rewrite get_own by (by eapply qualifies_not_nullish).
  unfold bind at 1. rewrite (getActionsObject_unknown _ w Hunknown), Hq.
  unfold triggers_and_replies, replies. rewrite bind_assoc.
  unfold bind at 1, this at 1. rewrite bind_assoc. cbn [self].
  destruct (text_loop_inert E message (List.length (_textRegexpCallbacks (self w)))
              0%nat [] (Machine (self w) (log w ++ [missing_conv_error
                                                      (own message "conversation")])) Hinert)
    as (props' & w1 & nt & Ht & S1 & Lt & Ft & G).
  destruct (grows_text_loop E only_errors (fun _ => eq_refl) (fun _ _ => I)
              _ _ _ _ (fun _ _ _ => I) _ _ _ Ht) as (nt' & Lt' & Ft').
  unfold bind at 1. rewrite Ht. cbn [own]. rewrite G. cbn [assoc].
  rewrite bind_assoc. unfold bind at 1, this at 1.
  rewrite bind_assoc. unfold bind at 1, lift at 1.
  destruct (get (auth (self w1)) "user") as [me|e] eqn:Hme.
  - unfold bind, lift. intros [= <- <-].
    eexists. split; [reflexivity|]. split; [reflexivity|].
    intros event args. rewrite (added_app w w1 ([missing_conv_error _] ++ nt'))
      by (rewrite Lt'; cbn [log]; by rewrite <- app_assoc).
    intros [[[= <- _]|[]]|Hin]%in_app_or; [done|].
    rewrite List.Forall_forall in Ft'. exact (Ft' _ Hin).
  - intros [= <- <-]. exists e. split; [reflexivity|].
    split; [by eapply get_type_error|].
    intros event args. rewrite (added_app w w1 ([missing_conv_error _] ++ nt'))
      by (rewrite Lt'; cbn [log]; by rewrite <- app_assoc).
    intros [[[= <- _]|[]]|Hin]%in_app_or; [done|].
    rewrite List.Forall_forall in Ft'. exact (Ft' _ Hin).
Qed.

Lemma unknown_conversation_aborts_dispatch_witness :
  exists e,
    fst (_handleMessage quiet hello_type orphan_message
                        (Machine (fresh_bot bot_identity) [])) = Throw e
    /\ is_type_error e = true
    /\ forall event args,
         In (Emit event args)
            (added (Machine (fresh_bot bot_identity) [])
                   (snd (_handleMessage quiet hello_type orphan_message
                                        (Machine (fresh_bot bot_identity) [])))) ->
         event = "error".
Proof.
  apply (unknown_conversation_aborts_dispatch quiet hello_type orphan_message
           (Machine (fresh_bot bot_identity) [])).
  - reflexivity.
  - left. reflexivity.
  - constructor.
Defined.

(** The same through [ingest]: the payload is accepted, its conversation
    is cached, the raw activity is emitted, the context cannot be built
    for the message, and [ingest] is left by the type error. *)
Example orphan_message_throws_out_of_ingest :
  ingest quiet orphan_payload VUndefined (Machine (fresh_bot bot_identity) [])
  = (Throw (not_a_function "ctx.get"),
     Machine (with_conversations (insert "c1" hello_conversation)
                                 (fresh_bot bot_identity))
             [Emit "activity" [VUndefined]; missing_conv_error VUndefined]).
Proof. vm_compute. reflexivity. Qed.

(** ** Organization preloading *)

Lemma message_shaped_inv (payload : value) :
  message_shaped payload = true ->
  exists event,
    own payload "event" = VStr event
    /\ starts_with "message" event = true
    /\ truthy payload = true
    /\ truthy (own payload "data") = true
    /\ truthy (conversation_of payload) = true
    /\ truthy (own (conversation_of payload) "id") = true.
Proof.
  unfold message_shaped, conversation_of. intros [H1 H2]%andb_prop.
  destruct (own payload "event") as [| | | |event| | | | |] eqn:He; try done.
  exists event. split; [done|]. split; [done|].
  assert (P : forall o k, truthy (own o k) = true -> truthy o = true).
  { intros o k Ht. destruct (truthy o) eqn:Ho; [done|].
    by rewrite (own_falsy _ _ Ho) in Ht. }
  assert (Hev : truthy (own payload "event") = true).
  { rewrite He. cbn. destruct event; [done|done]. }
  repeat split; eauto.
Qed.

Lemma signature_accepted_inv (E : environment) (b : bot) (payload signature : value) :
  signature_accepted E b payload signature = true ->
  truthy signature
  && negb (strict_eq (getSignature E (JSON_stringify E payload) (secret b)) signature)
  = false.
Proof.
  unfold signature_accepted. destruct (truthy signature); [|done].
  cbn. by intros ->.
Qed.

(** What [ingest] does with a valid message-shaped payload up to the point
    where it either dispatches or asks for the organization. *)
Lemma ingest_message_shaped (E : environment) (payload signature : value) (w : machine) :
  message_shaped payload = true ->
  signature_accepted E (self w) payload signature = true ->
  ingest E payload signature w
  = (let w1 := Machine (with_conversations
                          (insert (to_string (own (conversation_of payload) "id"))
                                  (conversation_of payload)) (self w)) (log w) in
     if negb (truthy (cache_get (_organizations (self w))
                                (own (conversation_of payload) "organization")))
        && preloadOrganizations (self w)
     then record (Fetch (own (conversation_of payload) "organization")) w1
     else _handleEvent E (own payload "event") payload w1).
Proof.
  intros Hm Hs.
  destruct (message_shaped_inv _ Hm) as (event & He & Hsw & Hp & Hd & Hc & Hi).
  unfold ingest. unfold bind at 1, this at 1.
  rewrite (signature_accepted_inv _ _ _ _ Hs), Hp, He. cbn [truthy negb orb startsWith].
  destruct event as [|a event]; [done|]. cbn [String.eqb negb].
  unfold bind at 1, lift at 1. rewrite Hsw.
  unfold conversation_of in *. rewrite Hd, Hc, Hi. cbn [negb orb].
  unfold bind at 1, modify at 1. unfold bind at 1, this at 1. cbn [self log].
  cbn [with_conversations _organizations preloadOrganizations].
  by destruct (negb _ && _).
Qed.

(** Once the organization is in the cache under the key the conversation
    refers to, what the resolved fetch sets off is what [ingest] does for
    the same payload when no preloading is needed. *)
Lemma preload_then_dispatches_as_cached
      (E : environment) (payload signature organization : value) (w : machine) :
  message_shaped payload = true ->
  signature_accepted E (self w) payload signature = true ->
  truthy organization = true ->
  to_string (own organization "id")
  = to_string (own (conversation_of payload) "organization") ->
  preload_settled E payload (Resolved organization) (pending payload w)
  = catch (ingest E payload signature) (preload_catch payload)
          (cache_organization organization (pending payload w)).
Proof.
  intros Hm Hs Ho Hid.
  assert (Hn : nullish organization = false) by (by destruct organization).
  unfold preload_settled, catch, preload_then.
  unfold bind at 1, lift at 1. rewrite get_own by done.
  rewrite ingest_message_shaped; [|done|by destruct w as [[] ?]].
  unfold bind at 1, modify at 1.
  unfold cache_organization, pending. cbn [self log with_conversations with_organizations
    _organizations _conversations preloadOrganizations auth secret uid onlyFirstMatch
    ignoreBots ignoreSelf receive _registeredCallbacks _textRegexpCallbacks
    _replyListenerId _replyListeners].
  unfold cache_get at 1. rewrite <- Hid, lookup_insert_eq. cbn [default id].
  rewrite Ho. cbn [negb andb].
  unfold with_conversations, with_organizations.
  cbn [auth secret uid preloadOrganizations onlyFirstMatch ignoreBots ignoreSelf receive
       _conversations _organizations _registeredCallbacks _textRegexpCallbacks
       _replyListenerId _replyListeners].
  by rewrite insert_insert_eq.
Qed.



(** ** A bot without an identity *)

Lemma replies_without_identity
      (E : environment) (message convId ctx : value) (w : machine) :
  nullish (auth (self w)) = true ->
  exists e, replies E message convId ctx w = (Throw e, w) /\ is_type_error e = true.
Proof.
  intros Ha. unfold replies, bind, this, lift.
  destruct (auth (self w)); try done; eexists; by split.
Qed.

Lemma handleMessage_reaches_replies
      (E : environment) (type : string) (message : value) (w : machine) :
  qualifies type message = true ->
  Forall (fun entry => inert E entry message) (_textRegexpCallbacks (self w)) ->
  exists props w1,
    self w1 = self w
    /\ _handleMessage E type message w
       = bind (replies E message (own message "conversation") (VObj props))
              (conclude type message) w1.
Proof.
  intros Hq Hinert. unfold _handleMessage. unfold bind at 1, lift at 1.
  rewrite get_own by (by eapply qualifies_not_nullish).
  destruct (getActionsObject_total (own message "conversation") w)
    as (props & n0 & H0 & F0).
  unfold bind at 1. rewrite H0, Hq.
  unfold triggers_and_replies. rewrite bind_assoc.
  unfold bind at 1, this at 1. rewrite bind_assoc. cbn [self].
  destruct (text_loop_inert E message (List.length (_textRegexpCallbacks (self w)))
              0%nat props (Machine (self w) (log w ++ n0)) Hinert)
    as (props' & w1 & nt & Ht & S1 & _).
  unfold bind at 1. rewrite Ht. by exists props', w1.
Qed.

Lemma ignoreSelf_without_identity (payload : value) (w : machine) :
  message_shaped payload = true ->
  nullish (auth (self w)) = true ->
  exists e, ignoreSelf_step payload w = (Throw e, w) /\ is_type_error e = true.
Proof.
  intros Hm Ha.
  destruct (message_shaped_inv _ Hm) as (event & He & Hsw & Hp & Hd & Hc & Hi).
  assert (N : forall v, truthy v = true -> nullish v = false) by (by intros []).
  unfold ignoreSelf_step. unfold bind at 1, lift at 1.
  rewrite (get_own payload) by auto. rewrite He.
  assert (Hev : truthy (VStr event) = true) by (by destruct event).
  rewrite Hev. cbn [negb startsWith]. unfold bind at 1, lift at 1. rewrite Hsw.
  unfold bind at 1, lift at 1. rewrite (get_own payload) by auto.
  unfold bind at 1, lift at 1. rewrite (get_own (own payload "data")) by auto.
  unfold bind at 1, lift at 1.
  destruct (get (own (own payload "data") "message") "user") as [user|e] eqn:Hu.
  - unfold bind, this, lift.
    destruct (auth (self w)); try done; eexists; by split.
  - exists e. split; [done|]. by eapply get_type_error.
Qed.

Lemma handleEvent_without_identity
      (E : environment) (payload : value) (w : machine) (rest : list middleware) :
  message_shaped payload = true ->
  nullish (auth (self w)) = true ->
  receive (self w) = ignoreSelfMiddleware :: rest ->
  exists e,
    _handleEvent E (own payload "event") payload w = (Throw e, w)
    /\ is_type_error e = true.
Proof.
  intros Hm Ha Hr. unfold _handleEvent. unfold bind at 1, this at 1.
  rewrite Hr. cbn [run run_step].
  destruct (ignoreSelf_without_identity payload w Hm Ha) as (e & He & Te).
  unfold bind at 1, bind at 1. rewrite He. by exists e.
Qed.

Lemma preload_then_without_identity
      (E : environment) (payload organization : value) (w : machine)
      (rest : list middleware) :
  message_shaped payload = true ->
  nullish (auth (self w)) = true ->
  receive (self w) = ignoreSelfMiddleware :: rest ->
  exists e w',
    preload_then E payload organization w = (Throw e, w')
    /\ is_type_error e = true
    /\ log w' = log w.
Proof.
  intros Hm Ha Hr. unfold preload_then. unfold bind at 1, lift at 1.
  destruct (get organization "id") as [id|e] eqn:Hid.
  - unfold bind at 1, modify at 1.
    destruct (handleEvent_without_identity E payload
                (Machine (with_organizations (insert (to_string id) organization) (self w))
                         (log w)) rest Hm) as (e & He & Te); [done|done|].
    rewrite He. by eexists _, _.
  - exists e, w. split; [done|]. split; [by eapply get_type_error|done].
Qed.



(** The run itself: the constructor's result, and the exception that
    leaves [ingest] with nothing logged. *)
Example anonymous_bot_throws :
  new_ChipChat quiet no_options = Normal anonymous_bot
  /\ ingest quiet hello_payload VUndefined (Machine anonymous_bot [])
     = (Throw (type_error "Cannot read properties of undefined (reading 'user')"),
        Machine (with_conversations (insert "c1" hello_conversation) anonymous_bot) []).
Proof. split; vm_compute; reflexivity. Qed.

(** With preloading on, the exception is thrown in the continuation of
    the fetch, where the promise catches it: it ends as the error signal
    of the fetch. *)
Example anonymous_preloading_bot_signals :
  preload_settled quiet hello_payload (Resolved acme)
    (pending hello_payload
       (Machine (Bot VUndefined (VBool false) VUndefined true false true true
                     [ignoreSelfMiddleware; ignoreBotsMiddleware] ∅ ∅ ∅ [] 0 []) []))
  = (Normal tt,
     Machine (Bot VUndefined (VBool false) VUndefined true false true true
                  [ignoreSelfMiddleware; ignoreBotsMiddleware]
                  {["c1" := hello_conversation]} {["o1" := acme]} ∅ [] 0 [])
             [Fetch (VStr "o1");
              preload_error hello_payload
                "TypeError: Cannot read properties of undefined (reading 'user')"]).
Proof. vm_compute. reflexivity. Qed.

(** The sample bot is what the constructor builds from the options of the
    scenario. *)
Example scenario_bot_is_constructed :
  new_ChipChat quiet scenario_options = Normal (fresh_bot bot_identity).
Proof. reflexivity. Qed.

(** * Further properties *)

(** ** More on the matcher *)

Lemma strict_eq_scalar (v t : value) : scalar t = true -> strict_eq v t = true <-> v = t.
Proof.
  intros Ht. destruct t as [| |b|n|s| | | | |]; try done; destruct v; cbn; split;
    try done; try (by intros [= ->]).
  - intros H. by apply Bool.eqb_prop in H as ->.
  - intros [= ->]. by destruct b.
  - intros H. by apply Z.eqb_eq in H as ->.
  - intros [= ->]. apply Z.eqb_refl.
  - intros H. by apply String.eqb_eq in H as ->.
  - intros [= ->]. apply String.eqb_refl.
Qed.



Lemma match_forallb (c m conditionals : value) (keys : list string) :
  nullish m = false -> nullish c = false ->
  object_keys conditionals = Normal keys ->
  match_ c m conditionals = Normal (forallb (key_passes c m conditionals) keys).
Proof.
  intros Hm Hc Hk. unfold match_. rewrite Hk. cbn [cbind].
  destruct keys as [|k r]; [done|].
  cbn [List.length Nat.eqb negb]. by rewrite reduce_reducer.
Qed.

(** X2.  A single conditional whose key is a context field behind an
    at-sign, with a scalar expectation, accepts exactly when the context
    holds that very value in the field, as long as neither the message nor
    the context's [meta] has a property under the key with its at-sign. *)
Theorem match_context_field (c m t : value) (field : string) :
  nullish m = false -> nullish c = false ->
  scalar t = true ->
  own m ("@" ++ field) = VUndefined ->
  own (own c "meta") ("@" ++ field) = VUndefined ->
  match_ c m (VObj [("@" ++ field, t)]) = Normal (strict_eq (own c field) t)
  /\ (strict_eq (own c field) t = true <-> own c field = t).
Proof.
  intros Hm Hc Ht Hmk Hck. split; [|by apply strict_eq_scalar].
  rewrite (match_forallb c m _ ["@" ++ field]) by done.
  cbn [forallb]. rewrite andb_true_r.
  unfold key_passes, passes_on_message, passes_on_context, passes_on_meta.
  rewrite Hmk, Hck.
  assert (Ho : own (VObj [("@" ++ field, t)]) ("@" ++ field) = t).
  { cbn [own assoc]. by rewrite String.eqb_refl. }
  assert (Hu : matcher VUndefined t = false) by (by destruct t).
  assert (Hs : starts_with "@" ("@" ++ field) = true) by (by destruct field).
  rewrite Ho, Hu, Hs, !andb_false_r, orb_false_r. cbn [andb orb append strip_at].
  by destruct t.
Qed.

Lemma match_context_field_witness :
  match_ (VObj [("organization", VStr "123")]) hello_message
         (VObj [("@organization", VStr "123")]) = Normal true.
Proof.
  exact (proj1 (match_context_field (VObj [("organization", VStr "123")]) hello_message
                  (VStr "123") "organization" eq_refl eq_refl eq_refl eq_refl eq_refl)).
Defined.

(** ** Handlers behind conditionals *)



(** X4.  A handler registered with conditionals that are [undefined] or
    [null] can never run: whenever its trigger fires, the wrapper throws a
    type error before the handler is called, and nothing is logged. *)
Theorem guarded_handler_without_conditionals_throws
        (E : environment) (conditionals : value) (f : callback) (args : list value)
        (w : machine) :
  nullish conditionals = true ->
  exists e, apply E (guard (Some conditionals) f) args w = (Throw e, w)
            /\ is_type_error e = true.
Proof.
  intros Hn. cbn [guard apply]. unfold bind, lift, match_.
  destruct conditionals; try done; cbn; eexists; by split.
Qed.

Lemma guarded_handler_without_conditionals_throws_witness :
  exists e, apply quiet (guard (Some VUndefined) (Fn "close")) [ticket_message; ticket_context]
                  (Machine (fresh_bot bot_identity) [])
            = (Throw e, Machine (fresh_bot bot_identity) [])
            /\ is_type_error e = true.
Proof.
  exact (guarded_handler_without_conditionals_throws quiet VUndefined (Fn "close")
           [ticket_message; ticket_context] (Machine (fresh_bot bot_identity) []) eq_refl).
Defined.

(** ** The webhook path *)

(** X5.  Whatever path the options or the environment give, the webhook
    path the constructor keeps is a string that starts with a slash; a
    path that has its slash already is kept as it is.  A path that is not a
    string makes the constructor throw. *)
Theorem webhook_starts_with_slash (opt_webhook env_WEBHOOK_PATH : value) :
  match webhook opt_webhook env_WEBHOOK_PATH with
  | Normal path =>
      exists s, path = VStr s
                /\ starts_with "/" s = true
                /\ webhook path env_WEBHOOK_PATH = Normal path
  | Throw e => is_type_error e = true
  end.
Proof.
  unfold webhook.
  set (p := if truthy opt_webhook then opt_webhook
            else if truthy env_WEBHOOK_PATH then env_WEBHOOK_PATH else VStr "/").
  assert (Hp : truthy p = true).
  { subst p. destruct (truthy opt_webhook) eqn:H1; [done|].
    by destruct (truthy env_WEBHOOK_PATH) eqn:H2. }
  destruct p as [| | | |s| | | | |]; try done. cbn [lacks_leading_slash cbind to_string].
  destruct (starts_with "/" s) eqn:Hs; cbn [negb].
  - exists s. split; [done|]. split; [done|].
    rewrite Hp. cbn [lacks_leading_slash cbind]. by rewrite Hs.
  - assert (H1 : starts_with "/" ("/" ++ s) = true) by (by destruct s).
    assert (H2 : truthy (VStr ("/" ++ s)) = true) by reflexivity.
    exists ("/" ++ s). split; [done|]. split; [done|].
    rewrite H2. cbn [lacks_leading_slash cbind]. by rewrite H1.
Qed.

Lemma webhook_starts_with_slash_example :
  webhook (VStr "hooks/chipchat") VUndefined = Normal (VStr "/hooks/chipchat")
  /\ webhook VUndefined VUndefined = Normal (VStr "/")
  /\ webhook VUndefined (VStr "/in") = Normal (VStr "/in").
Proof. repeat split. Qed.

(** ** Ingestion: the remaining branches *)

(** X6.  A payload whose event name starts with "message" but which names
    no conversation (no [data], no [data.conversation], or no id in it) is
    rejected with one error signal; nothing is cached and nothing is
    dispatched. *)
Theorem ingest_missing_conversation
        (E : environment) (payload signature : value) (event : string) (w : machine) :
  own payload "event" = VStr event ->
  starts_with "message" event = true ->
  truthy (own (conversation_of payload) "id") = false ->
  signature_accepted E (self w) payload signature = true ->
  ingest E payload signature w
  = (Normal tt, Machine (self w) (log w ++ [missing_conversation_error])).
Proof.
  intros He Hsw Hid Hs. unfold ingest. unfold bind at 1, this at 1.
  rewrite (signature_accepted_inv _ _ _ _ Hs).
  assert (Hp : truthy payload = true).
  { destruct (truthy payload) eqn:H; [done|].
    pose proof (own_falsy payload "event" H) as H'. rewrite He in H'.
    destruct event; [done|done]. }
  rewrite Hp, He. destruct event as [|a event]; [done|].
  cbn [truthy String.eqb negb orb startsWith]. unfold bind at 1, lift at 1.
  rewrite Hsw. unfold conversation_of in Hid. rewrite Hid. cbn [negb].
  by rewrite !orb_true_r.
Qed.

Lemma ingest_missing_conversation_witness :
  ingest quiet homeless_payload VUndefined (Machine (fresh_bot bot_identity) [])
  = (Normal tt, Machine (fresh_bot bot_identity) [missing_conversation_error]).
Proof.
  exact (ingest_missing_conversation quiet homeless_payload VUndefined
           "message.create.contact.chat"
           (Machine (fresh_bot bot_identity) []) eq_refl eq_refl eq_refl eq_refl).
Defined.

(** X7.  A payload with an event name that does not start with "message"
    and with no [activity] is dropped in silence: [ingest] returns
    normally, the bot and the log are what they were. *)
Theorem ingest_unknown_shape_is_ignored
        (E : environment) (payload signature : value) (event : string) (w : machine) :
  own payload "event" = VStr event ->
  event <> "" ->
  starts_with "message" event = false ->
  truthy (own payload "activity") = false ->
  signature_accepted E (self w) payload signature = true ->
  ingest E payload signature w = (Normal tt, w).
Proof.
  intros He Hne Hsw Ha Hs. unfold ingest. unfold bind at 1, this at 1.
  rewrite (signature_accepted_inv _ _ _ _ Hs).
  assert (Hp : truthy payload = true).
  { destruct (truthy payload) eqn:H; [done|].
    pose proof (own_falsy payload "event" H) as H'. rewrite He in H'.
    destruct event; [done|done]. }
  rewrite Hp, He. destruct event as [|a event]; [done|].
  cbn [truthy String.eqb negb orb startsWith]. unfold bind at 1, lift at 1.
  by rewrite Hsw, Ha.
Qed.

Lemma ingest_unknown_shape_is_ignored_witness :
  ingest quiet (VObj [("event", VStr "user.login")]) VUndefined
         (Machine default_bot [])
  = (Normal tt, Machine default_bot []).
Proof.
  exact (ingest_unknown_shape_is_ignored quiet (VObj [("event", VStr "user.login")])
           VUndefined "user.login" (Machine default_bot [])
           eq_refl ltac:(discriminate) eq_refl eq_refl eq_refl).
Defined.

(** The built-in steps let every payload through whose event name is a
    string that does not start with "message"; they do not look at the
    identity of the bot for it. *)
Lemma run_builtins_on_resource_event
      (E : environment) (stack : list middleware) (payload : value) (event : string)
      (w : machine) :
  forallb builtin stack = true ->
  own payload "event" = VStr event ->
  event <> "" ->
  starts_with "message" event = false ->
  run E stack payload w = (Normal (Done VUndefined), w).
Proof.
  intros Hb He Hne Hsw.
  assert (Hn : nullish payload = false).
  { destruct payload; try done; cbn in He; discriminate. }
  assert (Ht : truthy (VStr event) = true) by (by destruct event).
  induction stack as [|mw stack IH]; [done|].
  cbn [forallb] in Hb. apply andb_prop in Hb as [Hmw Hb].
  cbn [run]. unfold bind at 1.
  destruct mw; [| |done]; cbn [run_step].
  - unfold ignoreSelf_step. unfold bind at 1, lift at 1. rewrite get_own, He, Ht by done.
    cbn [negb startsWith]. unfold bind at 1, lift at 1. rewrite Hsw. cbn [ret].
    by apply IH.
  - unfold ignoreBots_step. unfold bind at 1, lift at 1. rewrite get_own, He, Ht by done.
    cbn [negb startsWith]. unfold bind at 1, lift at 1. rewrite Hsw. cbn [ret].
    by apply IH.
Qed.

(** X8.  A resource-activity payload (an event name that does not start
    with "message", and an [activity]) passes the built-in steps whether or
    not the bot has an identity, and is dispatched as two emissions: the
    raw activity, then the event under its own name with the whole
    payload.  The bot is unchanged. *)
Theorem ingest_resource_activity
        (E : environment) (payload signature : value) (event : string) (w : machine) :
  own payload "event" = VStr event ->
  event <> "" ->
  starts_with "message" event = false ->
  event <> "conversation.update" ->
  truthy (own payload "activity") = true ->
  forallb builtin (receive (self w)) = true ->
  signature_accepted E (self w) payload signature = true ->
  ingest E payload signature w
  = (Normal tt,
     Machine (self w)
             (log w ++ [Emit "activity" [own payload "activity"]; Emit event [payload]])).
Proof.
  intros He Hne Hsw Hcu Ha Hb Hs. unfold ingest. unfold bind at 1, this at 1.
  rewrite (signature_accepted_inv _ _ _ _ Hs).
  assert (Hp : truthy payload = true).
  { destruct (truthy payload) eqn:H; [done|].
    pose proof (own_falsy payload "event" H) as H'. rewrite He in H'.
    destruct event; [done|done]. }
  assert (Hn : nullish payload = false) by (by destruct payload).
  assert (Ht : truthy (VStr event) = true) by (by destruct event).
  rewrite Hp, He, Ht. cbn [negb orb startsWith]. unfold bind at 1, lift at 1.
  rewrite Hsw, Ha. unfold _handleEvent. unfold bind at 1, this at 1. unfold bind at 1.
  rewrite (run_builtins_on_resource_event E _ payload event w Hb He Hne Hsw).
  cbn [truthy]. unfold bind at 1, lift at 1. rewrite get_own by done.
  unfold bind at 1, emit at 1, bind at 1, record at 1. cbn [String.eqb Ascii.eqb Bool.eqb ret].
  unfold bind at 1, lift at 1. cbn [startsWith]. rewrite Hsw. cbn [andb to_string].
  unfold emit, bind, record.
  assert (Hx : String.eqb event "conversation.update" = false)
    by (by apply String.eqb_neq).
  rewrite Hx. cbn [ret self log]. by rewrite <- app_assoc.
Qed.

Lemma ingest_resource_activity_witness :
  ingest quiet login_payload VUndefined (Machine anonymous_bot [])
  = (Normal tt,
     Machine anonymous_bot [Emit "activity" [VStr "login"]; Emit "user.login" [login_payload]]).
Proof.
  exact (ingest_resource_activity quiet login_payload VUndefined "user.login"
           (Machine anonymous_bot []) eq_refl ltac:(discriminate) eq_refl
           ltac:(discriminate) eq_refl eq_refl eq_refl).
Defined.



(** ** The receive pipeline *)

Lemma constructor_identity (E : environment) (opts : options) (b : bot) :
  new_ChipChat E opts = Normal b ->
  truthy (token opts) = true ->
  truthy (jwt_decode E (token opts)) = true ->
  auth b = VObj [("user", own (own (jwt_decode E (token opts)) "payload") "_id");
                 ("organization", own (own (jwt_decode E (token opts)) "payload")
                                      "organization");
                 ("iat", own (own (jwt_decode E (token opts)) "payload") "iat");
                 ("exp", own (own (jwt_decode E (token opts)) "payload") "exp")].
Proof.
  unfold new_ChipChat. intros H Ht Hd. rewrite Ht, Hd in H.
  destruct (get (own (jwt_decode E (token opts)) "payload") "_id") as [id|e] eqn:Hid;
    [|done].
  cbn [cbind] in H. injection H as <-. cbn [auth].
  destruct (own (jwt_decode E (token opts)) "payload"); try done; by injection Hid as <-.
Qed.

Lemma constructor_receive (E : environment) (opts : options) (b : bot) :
  new_ChipChat E opts = Normal b ->
  receive b
  = ((if boolean_or true (opt_ignoreSelf opts) then [ignoreSelfMiddleware] else [])
     ++ (if boolean_or true (opt_ignoreBots opts) then [ignoreBotsMiddleware] else [])
     ++ map UserMiddleware (opt_receive opts))%list.
Proof.
  unfold new_ChipChat. intros H.
  destruct (if truthy (token opts) then _ else _) as [a|e]; [|done].
  cbn [cbind] in H. by injection H as <-.
Qed.

Lemma ignoreSelf_step_verdict (payload : value) (w : machine) :
  message_shaped payload = true ->
  nullish (own (own payload "data") "message") = false ->
  nullish (auth (self w)) = false ->
  ignoreSelf_step payload w
  = (Normal (if strict_eq (own (own (own payload "data") "message") "user")
                          (own (auth (self w)) "user")
             then Halt else Next), w).
Proof.
  intros Hm Hmsg Ha.
  destruct (message_shaped_inv _ Hm) as (event & He & Hsw & Hp & Hd & Hc & Hi).
  assert (N : forall v, truthy v = true -> nullish v = false) by (by intros []).
  unfold ignoreSelf_step. unfold bind at 1, lift at 1.
  rewrite (get_own payload) by auto. rewrite He.
  assert (Hev : truthy (VStr event) = true) by (by destruct event).
  rewrite Hev. cbn [negb startsWith]. unfold bind at 1, lift at 1. rewrite Hsw.
  unfold bind at 1, lift at 1. rewrite (get_own payload) by auto.
  unfold bind at 1, lift at 1. rewrite (get_own (own payload "data")) by auto.
  unfold bind at 1, lift at 1. rewrite get_own by done.
  unfold bind at 1, this at 1. unfold bind at 1, lift at 1. rewrite get_own by done.
  by destruct (strict_eq _ _).
Qed.

Lemma ignoreBots_step_verdict (payload : value) (w : machine) :
  message_shaped payload = true ->
  nullish (own (own payload "data") "message") = false ->
  ignoreBots_step payload w
  = (Normal (if strict_eq (own (own (own payload "data") "message") "role") (VStr "bot")
             then Halt else Next), w).
Proof.
  intros Hm Hmsg.
  destruct (message_shaped_inv _ Hm) as (event & He & Hsw & Hp & Hd & Hc & Hi).
  assert (N : forall v, truthy v = true -> nullish v = false) by (by intros []).
  unfold ignoreBots_step. unfold bind at 1, lift at 1.
  rewrite (get_own payload) by auto. rewrite He.
  assert (Hev : truthy (VStr event) = true) by (by destruct event).
  rewrite Hev. cbn [negb startsWith]. unfold bind at 1, lift at 1. rewrite Hsw.
  unfold bind at 1, lift at 1. rewrite (get_own payload) by auto.
  unfold bind at 1, lift at 1. rewrite (get_own (own payload "data")) by auto.
  unfold bind at 1, lift at 1. rewrite get_own by done.
  by destruct (strict_eq _ _).
Qed.

(** X10.  A bot built from a token that decodes, with ignore-self left on,
    does not dispatch its own messages: for a valid message payload whose
    message carries the [_id] of the token as its user, [ingest] caches the
    conversation and then stops in the first step of the pipeline.
    Nothing is emitted and no other step, trigger or listener is called. *)
Theorem own_messages_are_ignored
        (E : environment) (opts : options) (b : bot)
        (payload signature : value) (w : machine) :
  new_ChipChat E opts = Normal b ->
  truthy (token opts) = true ->
  truthy (jwt_decode E (token opts)) = true ->
  opt_ignoreSelf opts <> VBool false ->
  auth (self w) = auth b ->
  receive (self w) = receive b ->
  preloadOrganizations (self w) = false ->
  message_shaped payload = true ->
  signature_accepted E (self w) payload signature = true ->
  nullish (own (own payload "data") "message") = false ->
  strict_eq (own (own (own payload "data") "message") "user")
            (own (own (jwt_decode E (token opts)) "payload") "_id") = true ->
  ingest E payload signature w = (Normal tt, cached payload w).
Proof.
  intros Hnew Ht Hd Hself Hauth Hrecv Hpre Hm Hs Hmsg Hme.
  pose proof (constructor_identity E opts b Hnew Ht Hd) as Hid.
  pose proof (constructor_receive E opts b Hnew) as Hr.
  assert (Hi : boolean_or true (opt_ignoreSelf opts) = true).
  { destruct (opt_ignoreSelf opts) as [| |[]| | | | | | |]; try done. }
  rewrite Hi in Hr. cbn [app] in Hr.
  rewrite ingest_message_shaped by done. rewrite Hpre, andb_false_r. cbv zeta.
  fold (cached payload w). unfold _handleEvent. unfold bind at 1, this at 1.
  change (receive (self (cached payload w))) with (receive (self w)).
  rewrite Hrecv, Hr. cbn [run]. unfold bind at 1, bind at 1. cbn [run_step].
  assert (Hc : auth (self (cached payload w)) = auth b) by (by rewrite <- Hauth).
  rewrite ignoreSelf_step_verdict; [|done|done|by rewrite Hc, Hid].
  rewrite Hc, Hid. cbn [own assoc String.eqb Ascii.eqb Bool.eqb]. by rewrite Hme.
Qed.

Lemma own_messages_are_ignored_witness :
  ingest quiet own_payload VUndefined (Machine default_bot [])
  = (Normal tt, Machine (with_conversations (insert "c1" hello_conversation) default_bot) []).
Proof.
  exact (own_messages_are_ignored quiet default_options default_bot own_payload VUndefined
           (Machine default_bot []) eq_refl eq_refl eq_refl ltac:(discriminate)
           eq_refl eq_refl eq_refl eq_refl eq_refl eq_refl eq_refl).
Defined.

Lemma run_cons (E : environment) (mw : middleware) (rest : list middleware)
      (payload : value) :
  run E (mw :: rest) payload
  = (let* v := run_step E mw payload in
     match v with
     | Halt => ret Aborted
     | NextErr err => if truthy err then ret (Done err) else run E rest payload
     | Next => run E rest payload
     end).
Proof. reflexivity. Qed.

(** X11.  A bot built with ignore-bots left on, from a token that decodes,
    does not dispatch a message whose role is ["bot"], whoever wrote it
    and whether ignore-self is on or off: [ingest] caches the conversation
    and stops in the built-in steps, with nothing emitted and no user step,
    trigger or listener called. *)
Theorem bot_messages_are_ignored
        (E : environment) (opts : options) (b : bot)
        (payload signature : value) (w : machine) :
  new_ChipChat E opts = Normal b ->
  truthy (token opts) = true ->
  truthy (jwt_decode E (token opts)) = true ->
  opt_ignoreBots opts <> VBool false ->
  auth (self w) = auth b ->
  receive (self w) = receive b ->
  preloadOrganizations (self w) = false ->
  message_shaped payload = true ->
  signature_accepted E (self w) payload signature = true ->
  nullish (own (own payload "data") "message") = false ->
  own (own (own payload "data") "message") "role" = VStr "bot" ->
  ingest E payload signature w = (Normal tt, cached payload w).
Proof.
  intros Hnew Ht Hd Hbots Hauth Hrecv Hpre Hm Hs Hmsg Hrole.
  pose proof (constructor_identity E opts b Hnew Ht Hd) as Hid.
  pose proof (constructor_receive E opts b Hnew) as Hr.
  assert (Hi : boolean_or true (opt_ignoreBots opts) = true).
  { destruct (opt_ignoreBots opts) as [| |[]| | | | | | |]; try done. }
  rewrite Hi in Hr.
  rewrite ingest_message_shaped by done. rewrite Hpre, andb_false_r. cbv zeta.
  fold (cached payload w). unfold _handleEvent. unfold bind at 1, this at 1.
  change (receive (self (cached payload w))) with (receive (self w)).
  rewrite Hrecv, Hr.
  assert (Hc : auth (self (cached payload w)) = auth b) by (by rewrite <- Hauth).
  assert (Hb : forall rest,
             run E (ignoreBotsMiddleware :: rest) payload (cached payload w)
             = (Normal Aborted, cached payload w)).
  { intros rest. rewrite run_cons. unfold bind at 1. cbn [run_step].
    rewrite ignoreBots_step_verdict by done. by rewrite Hrole. }
  unfold bind at 1.
  destruct (boolean_or true (opt_ignoreSelf opts)); cbn [app].
  - rewrite run_cons. unfold bind at 1. cbn [run_step].
    rewrite ignoreSelf_step_verdict; [|done|done|by rewrite Hc, Hid].
    destruct (strict_eq _ _); [done|]. by rewrite Hb.
  - by rewrite Hb.
Qed.

Lemma bot_messages_are_ignored_witness :
  ingest quiet robot_payload VUndefined (Machine default_bot [])
  = (Normal tt, Machine (with_conversations (insert "c1" hello_conversation) default_bot) []).
Proof.
  exact (bot_messages_are_ignored quiet default_options default_bot robot_payload VUndefined
           (Machine default_bot []) eq_refl eq_refl eq_refl ltac:(discriminate)
           eq_refl eq_refl eq_refl eq_refl eq_refl eq_refl eq_refl).
Defined.

(** The steps of a prefix of the pipeline run first; the rest runs only
    when every step of the prefix has passed the event on without error. *)
Lemma run_app (E : environment) (pre rest : list middleware) (payload : value)
      (w : machine) :
  run E (pre ++ rest) payload w
  = match run E pre payload w with
    | (Normal (Done err), w1) =>
        if truthy err then (Normal (Done err), w1) else run E rest payload w1
    | other => other
    end.
Proof.
  revert w. induction pre as [|mw pre IH]; intros w; [done|].
  cbn [app]. rewrite !run_cons. unfold bind.
  destruct (run_step E mw payload w) as [[[|err|]|e] w1]; try done.
  destruct (truthy err) eqn:Herr; [|done]. unfold ret. by rewrite Herr.
Qed.

Lemma run_user_step (E : environment) (name : string) (payload : value) (w : machine) :
  run_step E (UserMiddleware name) payload w
  = (fst (step E name payload (self w)),
     Machine (snd (step E name payload (self w))) (log w ++ [Call name [payload]])).
Proof.
  cbn [run_step]. unfold bind, record, foreign. cbn [self log].
  by destruct (step E name payload (self w)).
Qed.

(** X12.  A step added with [use] that does not call its continuation
    ends the processing of the event silently: once the steps before it
    have passed the event on, the step is called with the event, and
    [_handleEvent] returns with nothing emitted, no later step called and
    no listener run.  The state is the one the step left. *)
Theorem halting_step_ends_dispatch
        (E : environment) (steps : list string) (name : string)
        (type event : value) (w w1 : machine) (b' : bot) :
  hd_error steps = Some name ->
  run E (receive (self w)) event (snd (use steps w)) = (Normal (Done VUndefined), w1) ->
  step E name event (self w1) = (Normal Halt, b') ->
  (let* _ := use steps in _handleEvent E type event) w
  = (Normal tt, Machine b' (log w1 ++ [Call name [event]])).
Proof.
  intros Hs Hpre Hstep. destruct steps as [|n more]; [done|]. injection Hs as ->.
  unfold bind at 1. unfold use at 1, modify at 1.
  unfold use, modify in Hpre. cbn [snd] in Hpre.
  set (w0 := Machine _ (log w)) in *.
  unfold _handleEvent. unfold bind at 1, this at 1.
  change (receive (self w0))
    with (receive (self w) ++ UserMiddleware name :: map UserMiddleware more)%list.
  unfold bind at 1. rewrite run_app, Hpre. cbn [truthy].
  rewrite run_cons. unfold bind at 1. by rewrite run_user_step, Hstep.
Qed.

Lemma halting_step_ends_dispatch_witness :
  (let* _ := use ["block"; "fail"] in
   _handleEvent strict (VStr "message.create.contact.chat") hello_payload)
    (Machine default_bot [])
  = (Normal tt,
     Machine (with_receive (fun l => (l ++ map UserMiddleware ["block"; "fail"])%list)
                           default_bot)
             [Call "block" [hello_payload]]).
Proof.
  exact (halting_step_ends_dispatch strict ["block"; "fail"] "block"
           (VStr "message.create.contact.chat") hello_payload (Machine default_bot [])
           _ _ eq_refl eq_refl eq_refl).
Defined.

(** X13.  A step that passes a truthy error to its continuation stops the
    pipeline: the steps after it are not called, and the only thing
    [_handleEvent] emits is one [error] of type ["middleware"] whose
    message ends in the error's text.  No activity or message event is
    emitted for the event. *)
Theorem failing_step_signals_middleware_error
        (E : environment) (pre rest : list middleware) (name : string)
        (type event err : value) (w w1 : machine) (b' : bot) :
  receive (self w) = (pre ++ UserMiddleware name :: rest)%list ->
  run E pre event w = (Normal (Done VUndefined), w1) ->
  step E name event (self w1) = (Normal (NextErr err), b') ->
  truthy err = true ->
  _handleEvent E type event w
  = (Normal tt, Machine b' (log w1 ++ [Call name [event]; middleware_error err])).
Proof.
  intros Hr Hpre Hstep Herr.
  unfold _handleEvent. unfold bind at 1, this at 1. rewrite Hr.
  unfold bind at 1. rewrite run_app, Hpre. cbn [truthy].
  rewrite run_cons. unfold bind at 1. rewrite run_user_step, Hstep. cbn [fst snd].
  rewrite Herr. unfold ret at 1. rewrite Herr.
  unfold emit, bind, record. cbn [String.eqb Ascii.eqb Bool.eqb ret self log].
  by rewrite <- app_assoc.
Qed.

Lemma failing_step_signals_middleware_error_witness :
  _handleEvent strict (VStr "message.create.contact.chat") hello_payload
    (Machine (with_receive (fun l => (l ++ map UserMiddleware ["fail"; "block"])%list)
                           default_bot) [])
  = (Normal tt,
     Machine (with_receive (fun l => (l ++ map UserMiddleware ["fail"; "block"])%list)
                           default_bot)
             [Call "fail" [hello_payload]; middleware_error (VStr "quota")]).
Proof.
  exact (failing_step_signals_middleware_error strict
           [ignoreSelfMiddleware; ignoreBotsMiddleware] [UserMiddleware "block"] "fail"
           (VStr "message.create.contact.chat") hello_payload (VStr "quota")
           (Machine (with_receive (fun l => (l ++ map UserMiddleware ["fail"; "block"])%list)
                                  default_bot) [])
           _ _ eq_refl eq_refl eq_refl eq_refl).
Defined.

(** ** Reply listeners *)

Lemma find_fresh (l : list reply_listener) (x : reply_listener) :
  Forall (fun r => rl_id r < rl_id x) l ->
  list_find (fun r => rl_id r = rl_id x) (l ++ [x])%list = Some (List.length l, x).
Proof.
  induction 1 as [|y l Hy Hl IH]; cbn [app list_find List.length].
  - by rewrite decide_True.
  - rewrite decide_False by lia. by rewrite IH.
Qed.

Lemma delete_last (l : list reply_listener) (x : reply_listener) :
  delete (List.length l) (l ++ [x])%list = l.
Proof. induction l as [|y l IH]; [done|]. cbn. by f_equal. Qed.

Lemma others_all (id : Z) (l : list reply_listener) :
  list_find (fun r => rl_id r = id) l = None -> others id l = l.
Proof.
  unfold others. induction l as [|y l IH]; [done|]. cbn [list_find].
  destruct (decide (rl_id y = id)) as [|Hne]; [done|].
  destruct (list_find _ l) eqn:Hf; [done|]. intros _.
  rewrite filter_cons_True by done. by rewrite IH.
Qed.

Lemma others_delete (id : Z) (l : list reply_listener) (i : nat) (x : reply_listener) :
  NoDup (map rl_id l) ->
  list_find (fun r => rl_id r = id) l = Some (i, x) ->
  others id l = delete i l.
Proof.
  unfold others. revert i. induction l as [|y l IH]; intros i Hnd; [done|].
  cbn [list_find]. cbn [map] in Hnd. apply NoDup_cons in Hnd as [Hy Hnd].
  destruct (decide (rl_id y = id)) as [Heq|Hne].
  - intros [= <- <-]. rewrite filter_cons_False by (intros H; by apply H).
    cbn. apply (others_all id). apply list_find_None, Forall_forall.
    intros z Hz Hid. apply Hy. rewrite <- Heq in Hid. rewrite <- Hid.
    by apply list_elem_of_fmap_2.
  - destruct (list_find _ l) as [[j z]|] eqn:Hf; [|done].
    intros [= <- <-]. rewrite filter_cons_True by done. cbn. f_equal. by apply IH.
Qed.

(** X14.  [onReply] hands out an id that no registered listener has, and
    keeps the ids distinct: the listener is appended under the next
    number of the counter, which is above every id registered so far. *)
Theorem onReply_id_is_new
        (chatId messageId : value) (cb : callback) (w : machine) :
  distinct_ids (self w) ->
  exists w',
    onReply chatId messageId cb w = (Normal (_replyListenerId (self w) + 1), w')
    /\ _replyListeners (self w')
       = (_replyListeners (self w)
            ++ [ReplyListener (_replyListenerId (self w) + 1) chatId messageId cb])%list
    /\ (forall r, r ∈ _replyListeners (self w) -> rl_id r <> _replyListenerId (self w) + 1)
    /\ distinct_ids (self w')
    /\ log w' = log w.
Proof.
  intros [Hnd Hle].
  exists (Machine (with_replyListeners
                     (fun l => (l ++ [ReplyListener (_replyListenerId (self w) + 1)
                                                    chatId messageId cb])%list)
                     (with_replyListenerId (fun _ => _replyListenerId (self w) + 1)
                                           (self w)))
                  (log w)).
  split; [reflexivity|]. unfold distinct_ids.
  cbn [self log _replyListeners _replyListenerId with_replyListeners with_replyListenerId].
  split; [done|].
  assert (Hnew : forall r, r ∈ _replyListeners (self w) ->
                           rl_id r <> _replyListenerId (self w) + 1).
  { intros r Hr. rewrite Forall_forall in Hle. specialize (Hle r Hr). lia. }
  split; [done|]. split; [|done]. split.
  - rewrite map_app. cbn [map]. apply NoDup_app. split; [done|]. split.
    + intros z Hz Hin. apply elem_of_cons in Hin as [Hin|Hin%elem_of_nil]; [|done].
      cbn [rl_id] in Hin. apply list_elem_of_fmap in Hz as (r & Hid & Hr).
      apply (Hnew r Hr). congruence.
    + apply NoDup_singleton.
  - apply Forall_app. split.
    + eapply Forall_impl; [exact Hle|]. cbn. intros. lia.
    + constructor; [cbn; lia|constructor].
Qed.

Lemma onReply_id_is_new_witness :
  exists w',
    onReply (VStr "c1") (VStr "m9") (Fn "later") asked_twice
    = (Normal (_replyListenerId (self asked_twice) + 1), w')
    /\ _replyListeners (self w')
       = (_replyListeners (self asked_twice)
            ++ [ReplyListener (_replyListenerId (self asked_twice) + 1) (VStr "c1")
                              (VStr "m9") (Fn "later")])%list
    /\ (forall r, r ∈ _replyListeners (self asked_twice)
                  -> rl_id r <> _replyListenerId (self asked_twice) + 1)
    /\ distinct_ids (self w')
    /\ log w' = log asked_twice.
Proof.
  apply (onReply_id_is_new (VStr "c1") (VStr "m9") (Fn "later") asked_twice).
  split; cbn.
  - repeat (apply NoDup_cons; split;
            [intros H; repeat (apply elem_of_cons in H as [H|H]; [discriminate H|]);
             by apply elem_of_nil in H|]).
    apply NoDup_nil_2.
  - repeat (constructor; [cbn; lia|]). constructor.
Defined.

(** X15.  With distinct ids, [removeReplyListener] takes out the listener
    registered under the id and no other: what remains are the listeners
    with another id, in their order, still with distinct ids.  The result
    is the listener removed, or nothing when no listener has the id, and
    then the bot is as it was. *)
Theorem removeReplyListener_removes_that_listener
        (replyListenerId : Z) (w : machine) :
  distinct_ids (self w) ->
  exists r,
    removeReplyListener replyListenerId w
    = (Normal r,
       Machine (with_replyListeners (others replyListenerId) (self w)) (log w))
    /\ match r with
       | Some x => x ∈ _replyListeners (self w) /\ rl_id x = replyListenerId
       | None => others replyListenerId (_replyListeners (self w))
                 = _replyListeners (self w)
       end
    /\ distinct_ids (with_replyListeners (others replyListenerId) (self w)).
Proof.
  intros [Hnd Hle]. unfold removeReplyListener. unfold bind at 1, this at 1.
  destruct (list_find _ (_replyListeners (self w))) as [[i x]|] eqn:Hf.
  - exists (Some x). unfold bind, modify, ret. cbn [self log]. split; [|split].
    + unfold with_replyListeners. by rewrite (others_delete _ _ _ _ Hnd Hf).
    + apply list_find_Some in Hf as (Hi & Hx & _). split; [|done].
      apply list_elem_of_lookup. by exists i.
    + unfold distinct_ids, others. cbn [_replyListeners _replyListenerId with_replyListeners].
      split.
      * eapply sublist_NoDup; [exact Hnd|]. apply (fmap_sublist rl_id), sublist_filter.
      * eapply Forall_forall. intros r [_ Hr]%list_elem_of_filter.
        by apply (proj1 (Forall_forall _ _) Hle).
  - exists None. unfold ret.
    assert (Hsame : with_replyListeners (others replyListenerId) (self w) = self w).
    { unfold with_replyListeners. rewrite (others_all _ _ Hf). by destruct (self w). }
    rewrite Hsame, (others_all _ _ Hf). split; [by destruct w|done].
Qed.

Lemma removeReplyListener_removes_that_listener_witness :
  exists r,
    removeReplyListener 1 asked_twice
    = (Normal r, Machine (with_replyListeners (others 1) (self asked_twice)) (log asked_twice))
    /\ match r with
       | Some x => x ∈ _replyListeners (self asked_twice) /\ rl_id x = 1
       | None => others 1 (_replyListeners (self asked_twice))
                 = _replyListeners (self asked_twice)
       end
    /\ distinct_ids (with_replyListeners (others 1) (self asked_twice)).
Proof.
  apply (removeReplyListener_removes_that_listener 1 asked_twice).
  split; cbn.
  - repeat (apply NoDup_cons; split;
            [intros H; repeat (apply elem_of_cons in H as [H|H]; [discriminate H|]);
             by apply elem_of_nil in H|]).
    apply NoDup_nil_2.
  - repeat (constructor; [cbn; lia|]). constructor.
Defined.

(** X16.  Registering a reply listener and removing it under the id
    [onReply] returned gives the listener back and leaves the list of
    listeners as it was before; only the counter has moved on.  It needs no
    more than that no registered id is above the counter. *)
Theorem onReply_then_removeReplyListener
        (chatId messageId : value) (cb : callback) (w : machine) :
  Forall (fun r => rl_id r <= _replyListenerId (self w)) (_replyListeners (self w)) ->
  (let* id := onReply chatId messageId cb in removeReplyListener id) w
  = (Normal (Some (ReplyListener (_replyListenerId (self w) + 1) chatId messageId cb)),
     Machine (with_replyListenerId (fun n => n + 1) (self w)) (log w)).
Proof.
  intros Hle. unfold onReply. unfold bind at 1. unfold bind at 1, this at 1.
  cbv zeta. unfold bind at 1, modify at 1. unfold bind at 1, modify at 1. unfold ret at 1.
  unfold removeReplyListener. unfold bind at 1, this at 1.
  cbn [self log _replyListeners with_replyListeners with_replyListenerId].
  pose proof (find_fresh (_replyListeners (self w))
                (ReplyListener (_replyListenerId (self w) + 1) chatId messageId cb))
    as Hfind.
  cbn [rl_id] in Hfind. rewrite Hfind.
  2:{ eapply Forall_impl; [exact Hle|]. cbn. intros. lia. }
  unfold bind, modify, ret. cbn [self log].
  unfold with_replyListeners, with_replyListenerId. cbn. by rewrite delete_last.
Qed.

Lemma onReply_then_removeReplyListener_witness :
  (let* id := onReply (VStr "c1") (VStr "m9") (Fn "later") in removeReplyListener id)
    asked_twice
  = (Normal (Some (ReplyListener (_replyListenerId (self asked_twice) + 1)
                                 (VStr "c1") (VStr "m9") (Fn "later"))),
     Machine (with_replyListenerId (fun n => n + 1) (self asked_twice)) (log asked_twice)).
Proof.
  apply (onReply_then_removeReplyListener (VStr "c1") (VStr "m9") (Fn "later") asked_twice).
  cbn. repeat (constructor; [cbn; lia|]). constructor.
Defined.

(** ** Questions and their answers *)

(** X17.  A question and its answer.  Once the question has been sent,
    [ask] sends the command that marks the conversation on the platform and
    registers a listener under a new id; it writes nothing into the cached
    conversation itself.  When that listener is given the answer, it takes
    itself out of the list, which is then as it was before the question,
    and calls the asker's callback once, with the answer and a context
    built anew for the conversation. *)
Theorem ask_then_answer
        (E : environment) (convId e msg m : value) (name : string) (w : machine) :
  truthy e = false ->
  nullish (auth (self w)) = false ->
  nullish msg = false ->
  nullish m = false ->
  Forall (fun r => rl_id r <= _replyListenerId (self w)) (_replyListeners (self w)) ->
  let id := _replyListenerId (self w) + 1 in
  let mark := Send convId
                   (VObj [("text", VStr ("/set _asked" ++ to_string (own (auth (self w)) "user")
                                         ++ " " ++ to_string (own msg "id")));
                          ("type", VStr "command"); ("user", uid (self w));
                          ("meta", VObj [])]) in
  exists w1,
    ask_sent convId (Fn name) e msg w = (Normal (VNum id), w1)
    /\ log w1 = (log w ++ [mark])%list
    /\ _conversations (self w1) = _conversations (self w)
    /\ _replyListeners (self w1)
       = (_replyListeners (self w)
            ++ [ReplyListener id convId (own msg "id") (Resume id convId (Fn name))])%list
    /\ apply E (Resume id convId (Fn name)) [m] w1
       = (let* c := _getActionsObject convId in call E name [m; c])
           (Machine (with_replyListenerId (fun _ => id) (self w)) (log w1)).
Proof.
  intros He Ha Hmsg Hm Hle id mark.
  exists (Machine (with_replyListeners
                     (fun l => (l ++ [ReplyListener id convId (own msg "id")
                                                    (Resume id convId (Fn name))])%list)
                     (with_replyListenerId (fun _ => id) (self w)))
                  (log w ++ [mark])).
  split; [|split; [done|split; [done|split; [done|]]]].
  - unfold ask_sent. rewrite He. unfold bind at 1, this at 1.
    unfold bind at 1, lift at 1. rewrite get_own by done.
    unfold bind at 1, lift at 1. rewrite get_own by done.
    unfold bind at 1. unfold command at 1, bind at 1, this at 1, send at 1, record at 1.
    unfold bind at 1, this at 1. cbn [self log]. unfold bind at 1.
    unfold onReply, bind, this, modify, ret. cbn [self log]. reflexivity.
  - cbn [apply hd]. unfold bind at 1, lift at 1. rewrite get_own by done.
    unfold bind at 1. unfold removeReplyListener at 1, bind at 1, this at 1.
    cbn [self log _replyListeners with_replyListeners with_replyListenerId].
    pose proof (find_fresh (_replyListeners (self w))
                  (ReplyListener id convId (own msg "id") (Resume id convId (Fn name))))
      as Hfind.
    cbn [rl_id] in Hfind. rewrite Hfind.
    2:{ eapply Forall_impl; [exact Hle|]. cbn. intros. unfold id. lia. }
    unfold bind at 1, modify at 1. unfold ret at 1. cbn [self log].
    unfold with_replyListeners at 1. cbn [_replyListeners with_replyListeners auth secret
      uid preloadOrganizations onlyFirstMatch ignoreBots ignoreSelf receive _conversations
      _organizations _registeredCallbacks _textRegexpCallbacks _replyListenerId
      with_replyListenerId].
    by rewrite delete_last.
Qed.

Lemma ask_then_answer_witness :
  exists w1,
    ask_sent (VStr "c1") (Fn "resume") VUndefined (VObj [("id", VStr "m7")])
             (Machine marked_bot [])
    = (Normal (VNum 1), w1)
    /\ log w1 = [Send (VStr "c1")
                      (VObj [("text", VStr "/set _askedbot1 m7"); ("type", VStr "command");
                             ("user", VUndefined); ("meta", VObj [])])]
    /\ _conversations (self w1) = _conversations marked_bot
    /\ _replyListeners (self w1)
       = [ReplyListener 1 (VStr "c1") (VStr "m7") (Resume 1 (VStr "c1") (Fn "resume"))]
    /\ apply quiet (Resume 1 (VStr "c1") (Fn "resume")) [hello_message] w1
       = (let* c := _getActionsObject (VStr "c1") in call quiet "resume" [hello_message; c])
           (Machine (with_replyListenerId (fun _ => 1) marked_bot) (log w1)).
Proof.
  exact (ask_then_answer quiet (VStr "c1") VUndefined (VObj [("id", VStr "m7")])
           hello_message "resume" (Machine marked_bot [])
           eq_refl eq_refl eq_refl eq_refl (List.Forall_nil _)).
Defined.

(** ** Messages outside the trigger and reply phase *)

(** X18.  A message that does not qualify (a [channel.notify] event, a
    type other than chat or postback, an empty text, a role other than
    contact or agent) reaches no text trigger and no reply listener:
    whatever [_handleMessage] does for it, it only emits events.  No
    handler is called for a trigger or a listener, and nothing is sent. *)
Theorem unqualified_message_only_emits
        (E : environment) (type : string) (message : value) (w w' : machine)
        (r : completion unit) :
  qualifies type message = false ->
  _handleMessage E type message w = (r, w') ->
  exists new, log w' = (log w ++ new)%list /\ Forall is_emission new.
Proof.
  intros Hq. revert w r w'. fold (grows is_emission (_handleMessage E type message)).
  unfold _handleMessage. rewrite Hq.
  assert (He : forall event args, grows is_emission (emit event args)).
  { intros. apply grows_emit. intros; exact I. }
  apply grows_bind; [apply grows_lift|]. intros convId.
  apply grows_bind.
  { unfold _getActionsObject. apply grows_bind; [apply grows_this|]. intros b.
    destruct (_ || _); [|apply grows_ret].
    apply grows_bind; [apply He|]. intros; apply grows_ret. }
  intros ctx. apply grows_bind; [apply grows_ret|]. intros p.
  destruct (snd p); [apply grows_ret|].
  apply grows_generic_emissions. intros; exact I.
Qed.

Lemma unqualified_message_only_emits_witness :
  exists new,
    log (snd (_handleMessage quiet "message.create.bot.chat" robot_message
                             (Machine waiting_bot [])))
    = ([] ++ new)%list
    /\ Forall is_emission new.
Proof.
  exact (unqualified_message_only_emits quiet "message.create.bot.chat" robot_message
           (Machine waiting_bot []) _ _ eq_refl eq_refl).
Defined.



(** ** The generic emissions *)

Lemma message_event_is_no_update (type : string) :
  starts_with "message" type = true -> String.eqb type "conversation.update" = false.
Proof.
  intros H. destruct (String.eqb_spec type "conversation.update") as [->|]; [|done].
  discriminate H.
Qed.

Lemma starts_with_app (p s t : string) :
  starts_with p s = true -> starts_with p (s ++ t) = true.
Proof.
  unfold starts_with. revert p. induction s as [|b s IH]; intros [|a p] H.
  - by destruct t.
  - discriminate H.
  - reflexivity.
  - change (String.prefix (String a p) (String b (s ++ t)) = true).
    cbn [String.prefix] in *. destruct (Ascii.ascii_dec a b); [by apply IH|done].
Qed.

Lemma emit_plain (event : string) (args : list value) (w : machine) :
  String.eqb event "conversation.update" = false ->
  emit event args w = (Normal tt, Machine (self w) (log w ++ [Emit event args])).
Proof. intros H. unfold emit, bind, record. by rewrite H. Qed.

(** X20.  A command message with the text ["/assign"] and no [meta] makes
    [_handleMessage] throw a type error where it looks for the bot among
    the assigned users.  The [message] event and the event of the type
    have been emitted by then; the event for the role of the message is
    never emitted. *)
Theorem assign_without_meta_throws
        (E : environment) (type : string) (message : value) (w : machine) :
  nullish message = false ->
  own message "type" = VStr "command" ->
  own message "text" = VStr "/assign" ->
  nullish (own message "meta") = true ->
  starts_with "message" type = true ->
  exists ctx pre e,
    _handleMessage E type message w
    = (Throw e, Machine (self w)
                        (log w ++ pre ++ [Emit "message" [message; ctx];
                                          Emit type [message; ctx]]))
    /\ is_type_error e = true
    /\ Forall is_error_signal pre.
Proof.
  intros Hm Hty Htx Hmeta Hsw.
  destruct (getActionsObject_total (own message "conversation") w)
    as (props & pre & Hc & Hpre).
  assert (Hq : qualifies type message = false).
  { unfold qualifies. rewrite Hty. cbn [strict_eq String.eqb Ascii.eqb Bool.eqb orb].
    by rewrite andb_false_r. }
  destruct (get (own message "meta") "users") as [u|e] eqn:Hg.
  { by destruct (own message "meta"). }
  exists (VObj props), pre, e. split; [|split; [by eapply get_type_error|done]].
  unfold _handleMessage. unfold bind at 1, lift at 1. rewrite get_own by done.
  unfold bind at 1. rewrite Hc, Hq. unfold bind at 1, ret at 1. cbn [snd fst].
  unfold generic_emissions. unfold bind at 1.
  rewrite emit_plain by done. unfold bind at 1.
  rewrite emit_plain by (by apply message_event_is_no_update).
  rewrite Hty, Htx. cbn [strict_eq String.eqb Ascii.eqb Bool.eqb andb].
  unfold bind at 1, bind at 1, lift at 1. rewrite Hg. cbn [self log].
  by rewrite <- !app_assoc.
Qed.

Lemma assign_without_meta_throws_witness :
  exists ctx pre e,
    _handleMessage quiet "message.create.agent.command"
                   (VObj [("conversation", VStr "c1"); ("type", VStr "command");
                          ("text", VStr "/assign"); ("role", VStr "agent")])
                   (Machine (known_bot false) [])
    = (Throw e,
       Machine (known_bot false)
               ([] ++ pre
                ++ [Emit "message"
                         [VObj [("conversation", VStr "c1"); ("type", VStr "command");
                                ("text", VStr "/assign"); ("role", VStr "agent")]; ctx];
                    Emit "message.create.agent.command"
                         [VObj [("conversation", VStr "c1"); ("type", VStr "command");
                                ("text", VStr "/assign"); ("role", VStr "agent")]; ctx]]))
    /\ is_type_error e = true
    /\ Forall is_error_signal pre.
Proof.
  exact (assign_without_meta_throws quiet "message.create.agent.command"
           (VObj [("conversation", VStr "c1"); ("type", VStr "command");
                  ("text", VStr "/assign"); ("role", VStr "agent")])
           (Machine (known_bot false) []) eq_refl eq_refl eq_refl eq_refl eq_refl).
Defined.

(** X21.  A command message whose text starts with [>] is announced four
    times: as [message], under the event of its type, as [notify], and,
    when it has a role, under the event of its type and role; always in
    this order, with the message and the same context, and with no handler
    of a trigger or listener in between. *)
Theorem bot_command_is_notified
        (E : environment) (type text : string) (message : value) (w : machine) :
  nullish message = false ->
  own message "type" = VStr "command" ->
  own message "text" = VStr text ->
  starts_with ">" text = true ->
  starts_with "message" type = true ->
  exists ctx pre,
    _handleMessage E type message w
    = (Normal tt,
       Machine (self w)
               (log w ++ pre
                ++ [Emit "message" [message; ctx]; Emit type [message; ctx];
                    Emit "notify" [message; ctx]]
                ++ (if truthy (own message "role")
                    then [Emit (type ++ "." ++ to_string (own message "role"))
                               [message; ctx]]
                    else [])))
    /\ Forall is_error_signal pre.
Proof.
  intros Hm Hty Htx Hgt Hsw.
  destruct (getActionsObject_total (own message "conversation") w)
    as (props & pre & Hc & Hpre).
  assert (Hq : qualifies type message = false).
  { unfold qualifies. rewrite Hty. cbn [strict_eq String.eqb Ascii.eqb Bool.eqb orb].
    by rewrite andb_false_r. }
  assert (Hna : String.eqb text "/assign" = false).
  { destruct (String.eqb_spec text "/assign") as [->|]; [discriminate Hgt|done]. }
  exists (VObj props), pre. split; [|done].
  unfold _handleMessage. unfold bind at 1, lift at 1. rewrite get_own by done.
  unfold bind at 1. rewrite Hc, Hq. unfold bind at 1, ret at 1. cbn [snd fst].
  unfold generic_emissions. unfold bind at 1.
  rewrite emit_plain by done. unfold bind at 1.
  rewrite emit_plain by (by apply message_event_is_no_update).
  rewrite Hty, Htx. cbn [strict_eq String.eqb Ascii.eqb Bool.eqb andb to_string].
  rewrite Hna, Hgt. cbn [andb]. unfold bind at 1, ret at 1. unfold bind at 1.
  rewrite emit_plain by done. unfold bind at 1, ret at 1.
  rewrite Hsw. cbn [andb self log]. destruct (truthy (own message "role")).
  - rewrite emit_plain by (apply message_event_is_no_update; by apply starts_with_app).
    cbn [self log]. by rewrite <- !app_assoc.
  - unfold ret. by rewrite <- !app_assoc.
Qed.

Lemma bot_command_is_notified_witness :
  exists ctx pre,
    _handleMessage quiet "message.create.agent.command"
                   (VObj [("conversation", VStr "c1"); ("type", VStr "command");
                          ("text", VStr ">deploy"); ("role", VStr "agent")])
                   (Machine (known_bot false) [])
    = (Normal tt,
       Machine (known_bot false)
               ([] ++ pre
                ++ [Emit "message"
                         [VObj [("conversation", VStr "c1"); ("type", VStr "command");
                                ("text", VStr ">deploy"); ("role", VStr "agent")]; ctx];
                    Emit "message.create.agent.command"
                         [VObj [("conversation", VStr "c1"); ("type", VStr "command");
                                ("text", VStr ">deploy"); ("role", VStr "agent")]; ctx];
                    Emit "notify"
                         [VObj [("conversation", VStr "c1"); ("type", VStr "command");
                                ("text", VStr ">deploy"); ("role", VStr "agent")]; ctx]]
                ++ [Emit "message.create.agent.command.agent"
                         [VObj [("conversation", VStr "c1"); ("type", VStr "command");
                                ("text", VStr ">deploy"); ("role", VStr "agent")]; ctx]]))
    /\ Forall is_error_signal pre.
Proof.
  exact (bot_command_is_notified quiet "message.create.agent.command" ">deploy"
           (VObj [("conversation", VStr "c1"); ("type", VStr "command");
                  ("text", VStr ">deploy"); ("role", VStr "agent")])
           (Machine (known_bot false) []) eq_refl eq_refl eq_refl eq_refl eq_refl).
Defined.

(** ** Reading and writing the conversation through the context *)

Lemma cache_get_insert (convId v : value) (m : gmap string value) :
  cache_get (<[to_string convId := v]> m) convId = v.
Proof. unfold cache_get. by rewrite lookup_insert_eq. Qed.

Lemma conversations_with (f : gmap string value -> gmap string value) (b : bot) :
  _conversations (with_conversations f b) = f (_conversations b).
Proof. reflexivity. Qed.

Lemma set_command_sent (convId : value) (key : string) (val : value) (b : bot)
      (l : list effect) :
  command convId ("/set " ++ key ++ " " ++ to_string val) (VObj []) (Machine b l)
  = (Normal tt,
     Machine b (l ++ [Send convId
                           (VObj [("text", VStr ("/set " ++ key ++ " " ++ to_string val));
                                  ("type", VStr "command"); ("user", uid b);
                                  ("meta", VObj [])])])).
Proof. reflexivity. Qed.



(** X23.  [set] and [get] disagree on a field that holds a falsy value
    other than [undefined] (an empty string, zero, [false], [null]): for the
    key with the [@] prefix, [set] finds the field not truthy and writes to
    [meta] under the prefixed key, while [get] finds the field defined and
    reads it.  So [get] after [set] returns the old value of the field, not
    the value set. *)
Theorem set_then_get_falsy_field
        (convId : value) (key k : string) (val : value)
        (cprops : list (string * value)) (w : machine) :
  cache_get (_conversations (self w)) convId = VObj cprops ->
  at_key key = Some k ->
  truthy (assoc k cprops) = false ->
  defined (assoc k cprops) = true ->
  match assoc "meta" cprops with
  | VObj _ => True
  | meta => truthy meta = false
  end ->
  exists w',
    (let* _ := ctx_set convId key val in ctx_get convId key) w
    = (Normal (assoc k cprops), w').
Proof.
  intros Hc Hat Ht Hd Hm. unfold bind at 1. unfold ctx_set. unfold bind at 1, this at 1.
  rewrite Hc, Hat. cbn [truthy own andb]. rewrite Ht.
  assert (Hlater : forall b l,
             cache_get (_conversations b) convId = VObj cprops
             \/ (exists mprops new,
                   assoc "meta" cprops = VObj mprops
                   /\ cache_get (_conversations b) convId
                      = VObj (set_assoc "meta" new cprops)) ->
             exists w', (let* _ := command convId ("/set " ++ key ++ " " ++ to_string val)
                                           (VObj []) in ctx_get convId key) (Machine b l)
                        = (Normal (assoc k cprops), w')).
  { intros b l Hb. unfold bind at 1. rewrite set_command_sent. eexists.
    unfold ctx_get, bind, this. cbn [self]. rewrite Hat.
    destruct Hb as [-> | (mprops & new & Hmp & ->)]; cbn [truthy own].
    - by rewrite Hd.
    - rewrite !assoc_set_assoc. destruct (String.eqb k "meta") eqn:Hkm.
      + apply String.eqb_eq in Hkm as ->. by rewrite Hmp in Ht.
      + by rewrite Hd. }
  destruct (assoc "meta" cprops) as [| |[]|n|s|items|mprops|r|f|en em] eqn:Hmeta;
    try discriminate Hm; cbn [truthy put];
    try (unfold bind at 1, ret at 1; apply Hlater; by left).
  - destruct (negb (n =? 0)) eqn:Hn; [by cbn in Hm; rewrite Hn in Hm|].
    unfold bind at 1, ret at 1. apply Hlater. by left.
  - destruct (negb (String.eqb s "")) eqn:Hs; [by cbn in Hm; rewrite Hs in Hm|].
    unfold bind at 1, ret at 1. apply Hlater. by left.
  - unfold bind at 1. unfold bind at 1, lift at 1. unfold modify at 1. cbn [self log].
    apply Hlater. right. exists mprops, (VObj (set_assoc key val mprops)).
    split; [done|]. by rewrite conversations_with, cache_get_insert.
Qed.

Lemma set_then_get_falsy_field_witness :
  exists w',
    (let* _ := ctx_set (VStr "c1") "@name" (VStr "Support") in ctx_get (VStr "c1") "@name")
      (Machine (with_conversations
                  (insert "c1" (VObj [("id", VStr "c1"); ("name", VStr "");
                                      ("meta", VObj [])]))
                  (fresh_bot bot_identity)) [])
    = (Normal (VStr ""), w').
Proof.
  exact (set_then_get_falsy_field (VStr "c1") "@name" "name" (VStr "Support")
           [("id", VStr "c1"); ("name", VStr ""); ("meta", VObj [])]
           (Machine (with_conversations
                       (insert "c1" (VObj [("id", VStr "c1"); ("name", VStr "");
                                           ("meta", VObj [])]))
                       (fresh_bot bot_identity)) [])
           eq_refl eq_refl eq_refl eq_refl I).
Defined.

(** ** The commands of the context *)

(** X24.  [notify] cannot be given organizations alone, nor an empty list
    of channels alone: with channels that are [undefined] or [null] and
    organizations that are truthy, or with truthy channels of no length
    and organizations that are [undefined] or [null], it throws a type
    error while it measures its arguments, and no command is sent. *)
Theorem notify_needs_channels
        (convId channels orgs : value) (w : machine) :
  (nullish channels = true /\ truthy orgs = true)
  \/ (truthy channels = true /\ truthy (own channels "length") = false
      /\ nullish orgs = true) ->
  exists e, ctx_notify convId channels orgs w = (Throw e, w) /\ is_type_error e = true.
Proof.
  intros [[Hc Ho]|(Hc & Hl & Ho)]; unfold ctx_notify, metaNotify, bind, lift.
  - assert (Hf : truthy channels = false) by (by destruct channels).
    rewrite Hf, Ho. cbn [negb andb].
    destruct (get channels "length") as [?|e] eqn:Hg; [by destruct channels|].
    exists e. split; [done|by eapply get_type_error].
  - rewrite Hc. cbn [negb andb]. rewrite get_own by (by destruct channels).
    cbn [cbind]. rewrite Hl. cbn [negb].
    destruct (get orgs "length") as [?|e] eqn:Hg; [by destruct orgs|].
    exists e. split; [done|by eapply get_type_error].
Qed.

Lemma notify_needs_channels_witness :
  (exists e, ctx_notify (VStr "c1") VUndefined (VArr [VStr "o1"]) (Machine marked_bot [])
             = (Throw e, Machine marked_bot [])
             /\ is_type_error e = true)
  /\ (exists e, ctx_notify (VStr "c1") (VArr []) VUndefined (Machine marked_bot [])
                = (Throw e, Machine marked_bot [])
                /\ is_type_error e = true).
Proof.
  split.
  - exact (notify_needs_channels (VStr "c1") VUndefined (VArr [VStr "o1"])
             (Machine marked_bot []) (or_introl (conj eq_refl eq_refl))).
  - exact (notify_needs_channels (VStr "c1") (VArr []) VUndefined
             (Machine marked_bot []) (or_intror (conj eq_refl (conj eq_refl eq_refl)))).
Defined.

Lemma assign_without_meta_users
      (E : environment) (type : string) (message : value) (w : machine) :
  nullish message = false ->
  own message "type" = VStr "command" ->
  own message "text" = VStr "/assign" ->
  nullish (own message "meta") = false ->
  nullish (own (own message "meta") "users") = true ->
  starts_with "message" type = true ->
  exists e w', _handleMessage E type message w = (Throw e, w') /\ is_type_error e = true.
Proof.
  intros Hm Hty Htx Hmeta Hus Hsw.
  destruct (getActionsObject_total (own message "conversation") w)
    as (props & pre & Hc & Hpre).
  assert (Hq : qualifies type message = false).
  { unfold qualifies. rewrite Hty. cbn [strict_eq String.eqb Ascii.eqb Bool.eqb orb].
    by rewrite andb_false_r. }
  destruct (get (own (own message "meta") "users") "indexOf") as [u|e] eqn:Hg.
  { by destruct (own (own message "meta") "users"). }
  exists e. eexists. split; [|by eapply get_type_error].
  unfold _handleMessage. unfold bind at 1, lift at 1. rewrite get_own by done.
  unfold bind at 1. rewrite Hc, Hq. unfold bind at 1, ret at 1. cbn [snd fst].
  unfold generic_emissions. unfold bind at 1.
  rewrite emit_plain by done. unfold bind at 1.
  rewrite emit_plain by (by apply message_event_is_no_update).
  rewrite Hty, Htx. cbn [strict_eq String.eqb Ascii.eqb Bool.eqb andb].
  unfold bind at 1, bind at 1, lift at 1. rewrite get_own by done.
  unfold bind at 1, lift at 1. by rewrite Hg.
Qed.

(** X25.  [assign] sends the users two levels down: the content of the
    [/assign] command has them under [meta.meta.users], as a list, and
    nothing under [meta.users], which is where [_handleMessage] looks for
    them in a [/assign] command it receives.  Given the content [assign]
    sent as the message, [_handleMessage] throws a type error. *)
Theorem assign_nests_users
        (E : environment) (convId users : value) (type : string) (w w1 : machine) :
  truthy (own users "length") = true ->
  starts_with "message" type = true ->
  exists content,
    ctx_assign convId users w
    = (Normal tt, Machine (self w) (log w ++ [Send convId content]))
    /\ own (own (own content "meta") "meta") "users"
       = match users with VArr _ => users | _ => VArr [users] end
    /\ own (own content "meta") "users" = VUndefined
    /\ exists e w', _handleMessage E type content w1 = (Throw e, w')
                    /\ is_type_error e = true.
Proof.
  intros Hl Hsw.
  assert (Hu : truthy users = true).
  { destruct (truthy users) eqn:H; [done|]. by rewrite (own_falsy _ _ H) in Hl. }
  eexists. split; [reflexivity|]. unfold metaAssign. rewrite Hu, Hl. cbn [negb].
  split; [done|]. split; [done|].
  set (content := VObj _).
  destruct (assign_without_meta_users E type content w1) as (e & w' & H & He);
    [done|done|done|done|done|done|]. by exists e, w'.
Qed.

Lemma assign_nests_users_witness :
  exists content,
    ctx_assign (VStr "c1") (VStr "u7") (Machine marked_bot [])
    = (Normal tt, Machine marked_bot ([] ++ [Send (VStr "c1") content]))
    /\ own (own (own content "meta") "meta") "users" = VArr [VStr "u7"]
    /\ own (own content "meta") "users" = VUndefined
    /\ exists e w', _handleMessage quiet "message.create.agent.command" content
                                   (Machine marked_bot [])
                    = (Throw e, w')
                    /\ is_type_error e = true.
Proof.
  exact (assign_nests_users quiet (VStr "c1") (VStr "u7") "message.create.agent.command"
           (Machine marked_bot []) (Machine marked_bot []) eq_refl eq_refl).
Defined.

(** ** Loading a conversation *)

(** X26.  [conversation], given a conversation object with a truthy id,
    caches the object under that id, replacing what the cache held, and
    hands out a context built for it.  No error is signalled on the way,
    no request is made, and a callback is scheduled, not called. *)
Theorem conversation_object_is_cached
        (E : environment) (conv : value) (cb : option string) (w : machine) :
  match conv with VStr _ => False | _ => True end ->
  truthy (own conv "id") = true ->
  exists props,
    conversation E conv cb w
    = (Normal (match cb with
               | None => Resolved_with (VObj props)
               | Some f => Scheduled f (VObj props)
               end),
       Machine (with_conversations (insert (to_string (own conv "id")) conv) (self w))
               (log w))
    /\ assoc "get" props = VFun "get".
Proof.
  intros Hs Hid.
  assert (Ht : truthy conv = true).
  { destruct (truthy conv) eqn:H; [done|]. by rewrite (own_falsy _ _ H) in Hid. }
  assert (Hn : nullish conv = false) by (by destruct conv).
  set (w1 := Machine (with_conversations (insert (to_string (own conv "id")) conv) (self w))
                     (log w)).
  destruct (getActionsObject_known (own conv "id") w1) as (props & Hc & Hg); [done| |].
  { unfold w1. cbn [self]. by rewrite conversations_with, cache_get_insert. }
  exists props. split; [|done].
  unfold conversation. rewrite Ht, Hid. cbn [negb].
  assert (Hf : conversation_finish cb conv w
               = (Normal (match cb with
                          | None => Resolved_with (VObj props)
                          | Some f => Scheduled f (VObj props)
                          end), w1)).
  { unfold conversation_finish. unfold bind at 1, lift at 1. rewrite get_own by done.
    unfold bind at 1, modify at 1. fold w1. unfold bind at 1. rewrite Hc.
    by destruct cb. }
  by destruct conv.
Qed.

Lemma conversation_object_is_cached_witness :
  exists props,
    conversation quiet renamed_conversation (Some "loaded") (Machine marked_bot [])
    = (Normal (Scheduled "loaded" (VObj props)),
       Machine (with_conversations (insert "c1" renamed_conversation) marked_bot) [])
    /\ assoc "get" props = VFun "get".
Proof.
  exact (conversation_object_is_cached quiet renamed_conversation (Some "loaded")
           (Machine marked_bot []) I eq_refl).
Defined.

(** ** The echo module *)

Lemma assoc_assign_absent (k : string) (s t : list (string * value)) :
  k ∉ map fst s -> assoc k (assign t s) = assoc k t.
Proof.
  unfold assign. revert t. induction s as [|[k' v] s IH]; intros t Hk; [done|].
  cbn [fold_left fst snd]. rewrite IH.
  - rewrite assoc_set_assoc. destruct (String.eqb_spec k k') as [->|]; [|done].
    exfalso. apply Hk. cbn. left.
  - intros H. apply Hk. cbn. by right.
Qed.

Lemma assoc_assign_present (k : string) (s t : list (string * value)) :
  NoDup (map fst s) -> k ∈ map fst s -> assoc k (assign t s) = assoc k s.
Proof.
  unfold assign. revert t. induction s as [|[k' v] s IH]; intros t Hnd Hk.
  - by apply elem_of_nil in Hk.
  - cbn [map fst] in Hnd, Hk. apply NoDup_cons in Hnd as [Hk' Hnd].
    cbn [fold_left fst snd assoc]. destruct (String.eqb_spec k k') as [->|Hne].
    + fold (assign (set_assoc k' v t) s). rewrite assoc_assign_absent by done.
      by rewrite assoc_set_assoc, String.eqb_refl.
    + apply elem_of_cons in Hk as [Hk|Hk]; [done|]. by apply IH.
Qed.

(** A field the context does not define itself is the field of the
    conversation. *)
Lemma context_field (k : string) (cprops : list (string * value)) (o : value) :
  NoDup (map fst cprops) ->
  k ∉ map fst (("organization", o) :: actions) ->
  assoc k (assign (assign [] cprops) (("organization", o) :: actions)) = assoc k cprops.
Proof.
  intros Hnd Hk. rewrite assoc_assign_absent by done.
  destruct (decide (k ∈ map fst cprops)) as [Hin|Hout].
  - by apply assoc_assign_present.
  - rewrite assoc_assign_absent by done. clear Hnd.
    induction cprops as [|[k' v] c IH]; [done|]. cbn [assoc].
    destruct (String.eqb_spec k k') as [->|]; [exfalso; apply Hout; cbn; left|].
    apply IH. intros H. apply Hout. cbn. by right.
Qed.

Lemma assoc_assign_say (t : list (string * value)) (o : value) :
  assoc "say" (assign t (("organization", o) :: actions)) = VFun "say".
Proof.
  unfold assign, actions. cbn [fold_left fst snd]. by rewrite !assoc_set_assoc.
Qed.

Lemma meta_is_no_action (o : value) : "meta" ∉ map fst (("organization", o) :: actions).
Proof.
  cbn. intros H. repeat (apply elem_of_cons in H as [H|H]; [discriminate H|]).
  by apply elem_of_nil in H.
Qed.

Lemma context_of_cached (convId : value) (cprops : list (string * value)) (w : machine) :
  truthy convId = true ->
  cache_get (_conversations (self w)) convId = VObj cprops ->
  exists o,
    _getActionsObject convId w
    = (Normal (VObj (assign (assign [] cprops) (("organization", o) :: actions))), w).
Proof.
  intros Hc Hconv. unfold _getActionsObject, bind, this. rewrite Hc, Hconv.
  cbn [truthy negb orb own_props ret]. by eexists.
Qed.

(** X27.  The echo handler, called with the context of a cached
    conversation whose [meta] is an object, answers with the text of the
    message behind the word Echo, once, unless [meta] holds a truthy
    [captured]; then it does nothing. *)
Theorem echo_replies_unless_captured
        (payload convId : value) (cprops mprops : list (string * value)) (w : machine) :
  nullish payload = false ->
  truthy convId = true ->
  cache_get (_conversations (self w)) convId = VObj cprops ->
  NoDup (map fst cprops) ->
  assoc "meta" cprops = VObj mprops ->
  exists chat,
    _getActionsObject convId w = (Normal chat, w)
    /\ echo payload chat convId w
       = (Normal tt,
          if truthy (assoc "captured" mprops) then w
          else Machine (self w)
                       (log w ++ [Send convId
                                       (VStr ("Echo: " ++ to_string (own payload "text")))])).
Proof.
  intros Hp Hc Hconv Hnd Hmeta.
  destruct (context_of_cached convId cprops w Hc Hconv) as [o Hctx].
  eexists. split; [exact Hctx|].
  unfold echo. unfold bind at 1, lift at 1. rewrite get_own by done.
  unfold bind at 1, lift at 1. cbn [get own]. rewrite assoc_assign_get.
  unfold bind at 1. unfold ctx_get at 1, bind at 1, this at 1. rewrite Hconv.
  cbn [truthy own at_key]. rewrite Hmeta. cbn [truthy own ret].
  destruct (truthy (assoc "captured" mprops)) eqn:Hcap; [done|].
  unfold bind at 1, lift at 1. cbn [get own].
  rewrite (context_field "meta") by (done || apply meta_is_no_action). rewrite Hmeta.
  unfold bind at 1, lift at 1. cbn [get own]. rewrite Hcap.
  by rewrite assoc_assign_say.
Qed.

Lemma echo_replies_unless_captured_witness :
  exists chat,
    _getActionsObject (VStr "c1") (Machine marked_bot []) = (Normal chat, Machine marked_bot [])
    /\ echo hello_message chat (VStr "c1") (Machine marked_bot [])
       = (Normal tt, Machine marked_bot [Send (VStr "c1") (VStr "Echo: hi")]).
Proof.
  apply (echo_replies_unless_captured hello_message (VStr "c1")
           [("id", VStr "c1"); ("organization", VStr "o1");
            ("meta", VObj [("_askedbot1", VStr "m7")])]
           [("_askedbot1", VStr "m7")] (Machine marked_bot [])); try reflexivity.
  cbn. repeat (apply NoDup_cons; split;
               [intros H; repeat (apply elem_of_cons in H as [H|H]; [discriminate H|]);
                by apply elem_of_nil in H|]).
  apply NoDup_nil_2.
Defined.

(** X28.  Called with the context of a cached conversation that has no
    [meta], the echo handler throws a type error where it reads
    [chat.meta.captured], and sends nothing. *)
Theorem echo_without_meta_throws
        (payload convId : value) (cprops : list (string * value)) (w : machine) :
  nullish payload = false ->
  truthy convId = true ->
  cache_get (_conversations (self w)) convId = VObj cprops ->
  NoDup (map fst cprops) ->
  nullish (assoc "meta" cprops) = true ->
  exists chat e,
    _getActionsObject convId w = (Normal chat, w)
    /\ echo payload chat convId w = (Throw e, w)
    /\ is_type_error e = true.
Proof.
  intros Hp Hc Hconv Hnd Hmeta.
  destruct (context_of_cached convId cprops w Hc Hconv) as [o Hctx].
  destruct (get (assoc "meta" cprops) "captured") as [?|e] eqn:Hg.
  { by destruct (assoc "meta" cprops). }
  eexists _, e. split; [exact Hctx|]. split; [|by eapply get_type_error].
  assert (Hf : truthy (assoc "meta" cprops) = false) by (by destruct (assoc "meta" cprops)).
  unfold echo. unfold bind at 1, lift at 1. rewrite get_own by done.
  unfold bind at 1, lift at 1. cbn [get own]. rewrite assoc_assign_get.
  unfold bind at 1. unfold ctx_get at 1, bind at 1, this at 1. rewrite Hconv.
  cbn [truthy own at_key]. rewrite Hf. cbn [own assoc ret truthy].
  unfold bind at 1, lift at 1. cbn [get own].
  rewrite (context_field "meta") by (done || apply meta_is_no_action).
  unfold bind at 1, lift at 1. by rewrite Hg.
Qed.

Lemma echo_without_meta_throws_witness :
  exists chat e,
    _getActionsObject (VStr "c1") (Machine (known_bot false) [])
    = (Normal chat, Machine (known_bot false) [])
    /\ echo hello_message chat (VStr "c1") (Machine (known_bot false) [])
       = (Throw e, Machine (known_bot false) [])
    /\ is_type_error e = true.
Proof.
  apply (echo_without_meta_throws hello_message (VStr "c1")
           [("id", VStr "c1"); ("organization", VStr "o1")] (Machine (known_bot false) []));
    try reflexivity.
  cbn. repeat (apply NoDup_cons; split;
               [intros H; repeat (apply elem_of_cons in H as [H|H]; [discriminate H|]);
                by apply elem_of_nil in H|]).
  apply NoDup_nil_2.
Defined.

(** X29.  The echo handler does not see the mark a text trigger leaves on
    the context: [captured] set on the context object itself changes
    nothing in what the handler does, which looks for the flag in the
    [meta] of the conversation only. *)
Theorem echo_ignores_captured_mark
        (payload convId mark : value) (props : list (string * value)) (w : machine) :
  echo payload (set_prop (VObj props) "captured" mark) convId w
  = echo payload (VObj props) convId w.
Proof.
  unfold echo. cbn [set_prop get own]. by rewrite !assoc_set_assoc.
Qed.
